(** * discord-ical-reminder: calendar windowing and notification scheduling

    A shallow embedding of package [calendar] (event model, ICS calendar
    queries, the online calendar's refresh and the notifier) together with the
    few operations of Go's [time], [cmp] and [slices] packages it relies on,
    followed by the properties proved about it. *)

From Stdlib Require Import ZArith List String Bool Lia Permutation Sorted.
From Stdlib Require Import DecimalString.
Import ListNotations.

Local Open Scope Z_scope.

(** ** Go's fixed-width integers *)

Definition minInt64 : Z := - 2 ^ 63.
Definition maxInt64 : Z := 2 ^ 63 - 1.

(** The value an [int64] computation leaves after overflow. *)
Definition wrap64 (z : Z) : Z := (z + 2 ^ 63) mod 2 ^ 64 - 2 ^ 63.

(** Outcome of a call that may panic. *)
Inductive outcome (A : Type) : Type :=
| Ok (a : A)
| Panic (msg : string).
Arguments Ok {A} a.
Arguments Panic {A} msg.

(** ** Package [time] *)

Module time.

(** A [time.Duration]: a count of nanoseconds held in an [int64]. *)
Definition Duration : Type := Z.

Definition Nanosecond : Duration := 1.
Definition Millisecond : Duration := 1000000.
Definition Second : Duration := 1000000000.
Definition Minute : Duration := 60 * Second.
Definition Hour : Duration := 60 * Minute.

(** Unary minus on a [Duration]; it wraps at the minimum value. *)
Definition neg (d : Duration) : Duration := wrap64 (- d).

(** A [*time.Location]: the pointer's identity, the offset (seconds east of
    UTC) in force before the first transition, and the transitions
    [(when, offset)] in ascending order of [when] (Unix seconds). *)
Record Location : Type := mkLocation {
  loc_ptr : nat;
  loc_zone0 : Z;
  loc_tx : list (Z * Z)
}.

Definition UTC : Location := mkLocation 0 0 [].

(** [FixedZone]: a zone with one offset and no transition. *)
Definition FixedZone (ptr : nat) (offset : Z) : Location := mkLocation ptr offset [].

(** Pointer comparison of two locations. *)
Definition Location_eqb (a b : Location) : bool := Nat.eqb (loc_ptr a) (loc_ptr b).

(** [Location.lookup]: the offset in force at Unix second [sec] and the
    bounds [start <= sec < end] of the period in which it applies. *)
Fixpoint lookup_tx (tx : list (Z * Z)) (sec offset start : Z) : Z * Z * Z :=
  match tx with
  | [] => (offset, start, maxInt64)
  | (when, off) :: rest =>
      if sec <? when then (offset, start, when) else lookup_tx rest sec off when
  end.

Definition lookup (l : Location) (sec : Z) : Z * Z * Z :=
  lookup_tx (loc_tx l) sec (loc_zone0 l) minInt64.

(** A [time.Time]: the instant, in nanoseconds since the Unix epoch, and the
    location it is presented in.  The monotonic clock reading is left out. *)
Record Time : Type := mkTime {
  instant : Z;
  zone : Location
}.

(** The zero [Time]: January 1, year 1, 00:00:00 UTC. *)
Definition zero : Time := mkTime (- 62135596800 * 1000000000) UTC.

Definition Before (t u : Time) : bool := instant t <? instant u.
Definition After (t u : Time) : bool := instant u <? instant t.

Definition Add (t : Time) (d : Duration) : Time := mkTime (instant t + d) (zone t).

(** [t.Sub(u)]: the difference, clamped to what a [Duration] can hold. *)
Definition Sub (t u : Time) : Duration :=
  let d := instant t - instant u in
  if d <? minInt64 then minInt64
  else if maxInt64 <? d then maxInt64
  else d.

(** [t.UnixNano()]: the instant as an [int64], overflowing outside of the
    years 1678 to 2262. *)
Definition UnixNano (t : Time) : Z := wrap64 (instant t).

Definition In (t : Time) (l : Location) : Time := mkTime (instant t) l.

(** [time.Date(y, m, d, 0, 0, 0, 0, t.Location())] for [y, m, d := t.Date()]:
    the civil date of [t] in its zone, at midnight of that zone. *)
Definition midnight (t : Time) : Time :=
  let sec := instant t / 1000000000 in
  let '(offset, _, _) := lookup (zone t) sec in
  let unix := (sec + offset) / 86400 * 86400 in
  let '(offset, start, end_) := lookup (zone t) unix in
  let unix :=
    if offset =? 0 then unix
    else
      let utc := unix - offset in
      let offset :=
        if (utc <? start) || (end_ <=? utc)
        then let '(offset, _, _) := lookup (zone t) utc in offset
        else offset in
      unix - offset in
  mkTime (unix * 1000000000) (zone t).

(** State of a countdown timer held by a loop. *)
Inductive Timer : Type :=
| NoTimer
| Armed (d : Duration)
| Stopped.

Definition Stop (t : Timer) : Timer :=
  match t with
  | Armed _ => Stopped
  | _ => t
  end.

End time.

(** ** Packages [cmp] and [slices] *)

Module cmp.

(** [cmp.Compare] on integers. *)
Definition Compare (x y : Z) : Z :=
  if x <? y then -1 else if y <? x then 1 else 0.

End cmp.

Module slices.

Section SortFunc.
Context {A : Type} (cmp : A -> A -> Z).

Fixpoint insert (x : A) (l : list A) : list A :=
  match l with
  | [] => [x]
  | y :: l' => if cmp x y <? 0 then x :: y :: l' else y :: insert x l'
  end.

(** [slices.SortFunc]: the slice in ascending order of [cmp].  Go does not
    promise an order among elements that compare equal; this model keeps
    them in their original order. *)
Definition SortFunc (l : list A) : list A := fold_right insert [] l.
End SortFunc.

End slices.

(** ** Package [calendar]: events and reminders *)

(** [ReminderAction] and [EventStatus] are strings. *)
Definition ReminderAction : Type := string.
Definition ReminderActionAudio : ReminderAction := "AUDIO"%string.
Definition ReminderActionDisplay : ReminderAction := "DISPLAY"%string.
Definition ReminderActionEmail : ReminderAction := "EMAIL"%string.

Definition EventStatus : Type := string.
Definition EventStatusUnknown : EventStatus := ""%string.
Definition EventTentative : EventStatus := "TENTATIVE"%string.
Definition EventConfirmed : EventStatus := "CONFIRMED"%string.
Definition EventCancelled : EventStatus := "CANCELLED"%string.

Record Reminder : Type := mkReminder {
  Action : ReminderAction;
  RemindAt : time.Time
}.

(** [Reminder{}]. *)
Definition Reminder_zero : Reminder := mkReminder ""%string time.zero.

Record Event : Type := mkEvent {
  StartsAt : time.Time;
  EndsAt : time.Time;
  Summary : string;
  Location : string;
  Description : string;
  Status : EventStatus;
  Reminders : list Reminder
}.

Definition set_Reminders (e : Event) (rs : list Reminder) : Event :=
  mkEvent (StartsAt e) (EndsAt e) (Summary e) (Location e) (Description e) (Status e) rs.

Definition CompareTime (a b : time.Time) : Z :=
  cmp.Compare (time.UnixNano a) (time.UnixNano b).

Definition CompareEvent (a b : Event) : Z := CompareTime (StartsAt a) (StartsAt b).

Definition timeIncludes (start end_ t : time.Time) : bool :=
  time.After t start && time.Before t end_.

Definition Within (e : Event) (start end_ : time.Time) (includeReminders : bool) : bool :=
  if timeIncludes start end_ (StartsAt e) then true
  else if includeReminders
       then existsb (fun r => timeIncludes start end_ (RemindAt r)) (Reminders e)
       else false.

Definition mapSlice {T1 T2 : Type} (slice : list T1) (f : T1 -> T2) : list T2 :=
  map f slice.

Definition ReminderTimes (reminders : list Reminder) : list time.Time :=
  mapSlice reminders RemindAt.

Definition CalculateReminderTimes (startsAt : time.Time) (durations : list time.Duration)
  : list time.Time :=
  mapSlice durations (fun d => time.Add startsAt (time.neg d)).

Definition NewReminders (times : list time.Time) (action : ReminderAction) : list Reminder :=
  mapSlice times (fun t => mkReminder action t).

Definition NewRemindersFromDuration (startsAt : time.Time) (durations : list time.Duration)
    (action : ReminderAction) : list Reminder :=
  NewReminders (CalculateReminderTimes startsAt durations) action.

Definition EarliestReminder (reminders : list Reminder) : Reminder :=
  match reminders with
  | [] => Reminder_zero
  | first :: rest =>
      fold_left
        (fun latest r => if time.Before (RemindAt r) (RemindAt latest) then r else latest)
        rest first
  end.

Definition ReminderParseFunc : Type := Event -> list Reminder.

Record EventsOpts : Type := mkEventsOpts {
  ParseReminder : option ReminderParseFunc;
  DefaultReminders : list time.Duration;
  DefaultReminderAction : ReminderAction;
  IncludeReminders : bool;
  ExcludeCancelled : bool
}.

Definition EventReminders (o : EventsOpts) (e : Event) : list Reminder :=
  let reminderAction :=
    if String.eqb (DefaultReminderAction o) ""%string
    then ReminderActionDisplay
    else DefaultReminderAction o in
  let reminders := NewRemindersFromDuration (StartsAt e) (DefaultReminders o) reminderAction in
  match ParseReminder o with
  | Some parse => reminders ++ parse e
  | None => reminders
  end.

(** ** The iCalendar and recurrence libraries, as seen by package [calendar] *)

Module rrule.

(** A recurrence set: [Between after before inc] lists the occurrences
    between the two bounds, the bounds themselves included when [inc]. *)
Record RuleSet : Type := mkRuleSet {
  Between : time.Time -> time.Time -> bool -> list time.Time
}.

End rrule.

Module ical.

Definition CompEvent : string := "VEVENT"%string.
Definition PropSummary : string := "SUMMARY"%string.
Definition PropLocation : string := "LOCATION"%string.
Definition PropDescription : string := "DESCRIPTION"%string.

(** A property: its name and the text [Prop.Text] reads from it. *)
Record Prop_ : Type := mkProp {
  PropName : string;
  Text : string
}.

Definition Props : Type := list Prop_.

(** [Props.Get]: the first property of that name, if any. *)
Definition Get (props : Props) (name : string) : option Prop_ :=
  find (fun p => String.eqb (PropName p) name) props.

(** A component of a calendar document.  What the library computes from an
    event component is recorded with it: the status [Event.Status] reports,
    the times [DateTimeStart] and [DateTimeEnd] read in a location ([None]
    when they return an error) and the recurrence set of [RecurrenceSet]
    ([None] when the event has no recurrence rule). *)
Record Component : Type := mkComponent {
  Name : string;
  ComponentProps : Props;
  Status : string;
  DateTimeStart : time.Location -> option time.Time;
  DateTimeEnd : time.Location -> option time.Time;
  RecurrenceSet : time.Location -> option rrule.RuleSet
}.

(** A calendar document: its components and the bytes the encoder writes
    for it ([None] when encoding fails). *)
Record Calendar : Type := mkCalendar {
  Children : list Component;
  Encode : option (list Byte.byte)
}.

End ical.

(** Go's [error] values, and a result returned next to one. *)
Definition error : Type := string.

Inductive result (A : Type) : Type :=
| Value (a : A)
| Err (err : error).
Arguments Value {A} a.
Arguments Err {A} err.

(** [errors.Wrap]. *)
Definition Wrap (err : error) (message : string) : error :=
  (message ++ ": " ++ err)%string.

(** [bytes.Equal]. *)
Fixpoint bytes_Equal (a b : list Byte.byte) : bool :=
  match a, b with
  | [], [] => true
  | x :: a', y :: b' => Byte.eqb x y && bytes_Equal a' b'
  | _, _ => false
  end.

(** ** The ICS calendar *)

(** An [ICSCalendar] with the address it is allocated at; a [*ICSCalendar] is
    an [option ICSCalendar], [None] being the nil pointer.  The struct is
    never modified, so the pointer carries what it points to. *)
Record ICSCalendar : Type := mkICSCalendar {
  ICSCalendar_addr : nat;
  ICSCalendar_ical : ical.Calendar
}.

Definition NewICS (addr : nat) (c : ical.Calendar) : ICSCalendar := mkICSCalendar addr c.

(** Comparison of two [*ICSCalendar] pointers. *)
Definition ICSCalendar_ptr_eqb (c x : option ICSCalendar) : bool :=
  match c, x with
  | None, None => true
  | Some c', Some x' => Nat.eqb (ICSCalendar_addr c') (ICSCalendar_addr x')
  | _, _ => false
  end.

Definition textProp (props : ical.Props) (name : string) : string :=
  match ical.Get props name with
  | None => ""%string
  | Some prop => ical.Text prop
  end.

Definition createEvent (src : ical.Component) (start end_ : time.Time) (opts : EventsOpts)
  : Event :=
  let e := mkEvent start end_
             (textProp (ical.ComponentProps src) ical.PropSummary)
             (textProp (ical.ComponentProps src) ical.PropLocation)
             (textProp (ical.ComponentProps src) ical.PropDescription)
             (ical.Status src)
             [] in
  set_Reminders e (EventReminders opts e).

Definition Equals (c x : option ICSCalendar) : bool :=
  if ICSCalendar_ptr_eqb c x then true
  else
    match c, x with
    | Some c', Some x' =>
        match ical.Encode (ICSCalendar_ical c'), ical.Encode (ICSCalendar_ical x') with
        | Some cBytes, Some xBytes => bytes_Equal cBytes xBytes
        | _, _ => false
        end
    | _, _ => false
    end.

(** The upper bound of the recurrence search. *)
Definition recurrenceEnd (event : Event) (end_ : time.Time) (opts : EventsOpts) : time.Time :=
  if IncludeReminders opts
  then
    let latestReminder := EarliestReminder (Reminders event) in
    let latestReminderDuration := time.Sub (StartsAt event) (RemindAt latestReminder) in
    time.Add end_ latestReminderDuration
  else end_.

(** One turn of the loop of [EventsBetween] over the document's components:
    [chosenEvents] after [component] has been looked at. *)
Definition visitComponent (start end_ : time.Time) (opts : EventsOpts)
    (location : time.Location) (chosenEvents : list Event) (component : ical.Component)
  : list Event :=
  if negb (String.eqb (ical.Name component) ical.CompEvent) then chosenEvents
  else if ExcludeCancelled opts && String.eqb (ical.Status component) EventCancelled
  then chosenEvents
  else
    match ical.DateTimeStart component location with
    | None => chosenEvents
    | Some dtstart =>
        match ical.DateTimeEnd component location with
        | None => chosenEvents
        | Some dtend =>
            let event := createEvent component dtstart dtend opts in
            match ical.RecurrenceSet component location with
            | Some rrules =>
                let duration := time.Sub dtend dtstart in
                let rstart := start in
                let rend := recurrenceEnd event end_ opts in
                chosenEvents ++
                  map (fun startsAt =>
                         createEvent component startsAt (time.Add startsAt duration) opts)
                      (rrule.Between rrules rstart rend true)
            | None =>
                if Within event start end_ (IncludeReminders opts)
                then chosenEvents ++ [event]
                else chosenEvents
            end
        end
    end.

Definition ICSCalendar_EventsBetween (c : ICSCalendar) (start end_ : time.Time)
    (opts : EventsOpts) : outcome (list Event) :=
  if negb (time.Location_eqb (time.zone start) (time.zone end_))
  then Panic "start and end must have the same location"
  else
    let location := time.zone start in
    let chosenEvents :=
      fold_left (visitComponent start end_ opts location)
                (ical.Children (ICSCalendar_ical c)) [] in
    Ok (slices.SortFunc CompareEvent chosenEvents).

(** ** The online ICS calendar *)

(** [ical] is the atomic pointer to the published snapshot. *)
Record OnlineICSCalendar : Type := mkOnlineICSCalendar {
  ICalURL : string;
  OnlineICSCalendar_ical : option ICSCalendar
}.

Definition NewOnlineICSCalendar (icalURL : string) : OnlineICSCalendar :=
  mkOnlineICSCalendar icalURL None.

Definition Load (c : OnlineICSCalendar) : option ICSCalendar := OnlineICSCalendar_ical c.

Definition Store (c : OnlineICSCalendar) (p : option ICSCalendar) : OnlineICSCalendar :=
  mkOnlineICSCalendar (ICalURL c) p.

(** [atomic.Pointer.CompareAndSwap]. *)
Definition CompareAndSwap (c : OnlineICSCalendar) (old new : option ICSCalendar)
  : bool * OnlineICSCalendar :=
  if ICSCalendar_ptr_eqb (Load c) old then (true, Store c new) else (false, c).

(** What the HTTP exchange of one [Refresh] and the parser yield: the request
    cannot be built, the client fails, or a response arrives with a status
    code, a status line and the outcome of [ParseICS] on its body. *)
Inductive Response : Type :=
| RequestFailed (err : error)
| DoFailed (err : error)
| Replied (StatusCode : Z) (Status : string) (parsed : result ICSCalendar).

(** [Refresh].  [others] is what other goroutines do to the published pointer
    between this call's [Load] and its [CompareAndSwap]: [None] when nothing
    is stored meanwhile, [Some p] when [p] is.  The result is the pair
    returned and the calendar afterwards. *)
Definition Refresh (c : OnlineICSCalendar) (resp : Response)
    (others : option (option ICSCalendar)) : (bool * option error) * OnlineICSCalendar :=
  match resp with
  | RequestFailed err => ((false, Some (Wrap err "failed to create request")), c)
  | DoFailed err => ((false, Some err), c)
  | Replied StatusCode Status parsed =>
      if negb (StatusCode =? 200)
      then ((false, Some ("unexpected status: " ++ Status)%string), c)
      else
        match parsed with
        | Err err => ((false, Some (Wrap err "failed to parse calendar")), c)
        | Value newCalendar =>
            let oldCalendar := Load c in
            if Equals oldCalendar (Some newCalendar) then ((false, None), c)
            else
              let c := match others with Some p => Store c p | None => c end in
              let '(swapped, c) := CompareAndSwap c oldCalendar (Some newCalendar) in
              if negb swapped then ((false, None), c) else ((true, None), c)
        end
  end.

Definition OnlineICSCalendar_EventsBetween (c : OnlineICSCalendar) (start end_ : time.Time)
    (opts : EventsOpts) : outcome (list Event) :=
  match Load c with
  | None => Ok []
  | Some ical => ICSCalendar_EventsBetween ical start end_ opts
  end.

(** ** The [Calendar] interface *)

(** What a type implements to be a [Calendar]. *)
Class CalendarImpl (C : Type) : Type :=
  EventsBetween_impl : C -> time.Time -> time.Time -> EventsOpts -> outcome (list Event).

#[export] Instance ICSCalendar_Calendar : CalendarImpl ICSCalendar :=
  ICSCalendar_EventsBetween.

#[export] Instance OnlineICSCalendar_Calendar : CalendarImpl OnlineICSCalendar :=
  OnlineICSCalendar_EventsBetween.

(** A value of interface type [Calendar]: the pointer it holds, by which two
    calendars are told apart, and the method found through it. *)
Record Calendar : Type := mkCalendar {
  Calendar_ptr : nat;
  EventsBetween : time.Time -> time.Time -> EventsOpts -> outcome (list Event)
}.

Definition asCalendar {C : Type} `{CalendarImpl C} (ptr : nat) (c : C) : Calendar :=
  mkCalendar ptr (EventsBetween_impl c).

Definition EventsWithin (c : Calendar) (t : time.Time) (d : time.Duration) (opts : EventsOpts)
  : outcome (list Event) :=
  EventsBetween c t (time.Add t d) opts.

(** The calendar of the notifier's test: it holds events, adds the reminders
    of the options to each and keeps those within the range. *)
Record mockCalendar : Type := newMockCalendar {
  events : list Event
}.

Definition mockCalendar_EventsBetween (c : mockCalendar) (start end_ : time.Time)
    (opts : EventsOpts) : outcome (list Event) :=
  let withReminders :=
    map (fun e => set_Reminders e (Reminders e ++ EventReminders opts e)) (events c) in
  Ok (slices.SortFunc CompareEvent
        (filter (fun e => Within e start end_ (IncludeReminders opts)) withReminders)).

#[export] Instance mockCalendar_Calendar : CalendarImpl mockCalendar :=
  mockCalendar_EventsBetween.

(** ** The notifier *)

Definition Day : time.Duration := 24 * time.Hour.

Record Notification : Type := mkNotification {
  Notification_Calendar : Calendar;
  Notification_Event : Event;
  RemindedAt : time.Time
}.

(** The tracked calendars: the keys of the map. *)
Record NotifierState : Type := mkNotifierState {
  Calendars : list Calendar
}.

Definition newNotifierState : NotifierState := mkNotifierState [].

Definition RemoveCalendar (n : NotifierState) (cal : Calendar) : NotifierState :=
  mkNotifierState
    (filter (fun c => negb (Nat.eqb (Calendar_ptr c) (Calendar_ptr cal))) (Calendars n)).

Definition AddCalendar (n : NotifierState) (cal : Calendar) : NotifierState :=
  mkNotifierState (Calendars (RemoveCalendar n cal) ++ [cal]).

Record NotifierOpts : Type := mkNotifierOpts {
  NotifierOpts_EventsOpts : EventsOpts;
  NotifierOpts_Location : option time.Location;
  SkipPastNotifications : bool
}.

(** A [Notifier]: [done] tells whether the channel of that name is closed,
    [update] whether its one-slot channel holds a value.  The mutex guards
    [state] against other goroutines and has no part in this model. *)
Record Notifier : Type := mkNotifier {
  opts : NotifierOpts;
  done : bool;
  update : bool;
  state : NotifierState
}.

(** [NewNotifier]; [Local] is the process's [time.Local]. *)
Definition NewNotifier (Local : time.Location) (opts : NotifierOpts) : Notifier :=
  let eventsOpts := NotifierOpts_EventsOpts opts in
  let eventsOpts :=
    mkEventsOpts (ParseReminder eventsOpts) (DefaultReminders eventsOpts)
                 (DefaultReminderAction eventsOpts) true (ExcludeCancelled eventsOpts) in
  let location :=
    match NotifierOpts_Location opts with
    | None => Some Local
    | Some l => Some l
    end in
  mkNotifier (mkNotifierOpts eventsOpts location (SkipPastNotifications opts))
             false false newNotifierState.

Definition Invalidate (n : Notifier) : Notifier :=
  mkNotifier (opts n) (done n) true (state n).

Definition Update (n : Notifier) (fn : NotifierState -> NotifierState) : Notifier :=
  Invalidate (mkNotifier (opts n) (done n) (update n) (fn (state n))).

(** The location the notifier was given; [NewNotifier] leaves none unset. *)
Definition Notifier_Location (n : Notifier) : time.Location :=
  match NotifierOpts_Location (opts n) with
  | Some l => l
  | None => time.UTC
  end.

Record notifyingEvent : Type := mkNotifyingEvent {
  notifyingEvent_Event : Event;
  notifyingEvent_Calendar : Calendar
}.

(** The comparison [notifyingEvents] sorts the reminders of an event with. *)
Definition laterReminderFirst (a b : Reminder) : Z :=
  -1 * CompareTime (RemindAt a) (RemindAt b).

(** The loop of [notifyingEvents] over the events one calendar returned.
    [ev] is a copy of [events[i]] whose [Reminders] slice has the backing
    array of [events[i].Reminders]: sorting it in place reorders the
    reminders of [events[i]] too.  Each event is taken to have a backing
    array of its own for its reminders, as the events [createEvent] builds
    have.  The result is the slice [events] as the loop leaves it, and
    [notifyingEvents] with what the loop appended. *)
Fixpoint rangeEvents (cal : Calendar) (events : list Event)
    (notifyingEvents : list notifyingEvent) : list Event * list notifyingEvent :=
  match events with
  | [] => ([], notifyingEvents)
  | ev :: rest =>
      if Nat.eqb (List.length (Reminders ev)) 0
      then
        let '(rest', notifyingEvents) := rangeEvents cal rest notifyingEvents in
        (ev :: rest', notifyingEvents)
      else
        let ev := set_Reminders ev (slices.SortFunc laterReminderFirst (Reminders ev)) in
        let '(rest', notifyingEvents) :=
          rangeEvents cal rest (notifyingEvents ++ [mkNotifyingEvent ev cal]) in
        (ev :: rest', notifyingEvents)
  end.

(** The loop of [notifyingEvents] over the tracked calendars, which [range]
    visits in the order [order]. *)
Fixpoint rangeCalendars (n : Notifier) (order : list Calendar) (start end_ : time.Time)
    (notifyingEvents : list notifyingEvent) : outcome (list notifyingEvent) :=
  match order with
  | [] => Ok notifyingEvents
  | cal :: rest =>
      match EventsBetween cal start end_ (NotifierOpts_EventsOpts (opts n)) with
      | Panic msg => Panic msg
      | Ok events =>
          rangeCalendars n rest start end_ (snd (rangeEvents cal events notifyingEvents))
      end
  end.

(** [notifyingEvents]; [order] is the order in which the [range] over the map
    of tracked calendars yields them, which Go leaves open. *)
Definition notifyingEvents (n : Notifier) (order : list Calendar) (start end_ : time.Time)
  : outcome (list notifyingEvent) :=
  match rangeCalendars n order start end_ [] with
  | Panic msg => Panic msg
  | Ok notifyingEvents =>
      Ok (slices.SortFunc
            (fun a b => CompareEvent (notifyingEvent_Event a) (notifyingEvent_Event b))
            notifyingEvents)
  end.

Definition notifications (n : Notifier) (order : list Calendar) (start end_ : time.Time)
  : outcome (list Notification) :=
  match notifyingEvents n order start end_ with
  | Panic msg => Panic msg
  | Ok events =>
      let notifications :=
        flat_map
          (fun ev =>
             map (fun reminder =>
                    mkNotification (notifyingEvent_Calendar ev) (notifyingEvent_Event ev)
                                   (RemindAt reminder))
                 (Reminders (notifyingEvent_Event ev)))
          events in
      Ok (slices.SortFunc (fun a b => CompareTime (RemindedAt a) (RemindedAt b)) notifications)
  end.

Definition shouldSkip (n : Notifier) (notification : Notification) (now : time.Time) : bool :=
  let startsAt := StartsAt (Notification_Event notification) in
  let startsAt :=
    if SkipPastNotifications (opts n) then RemindedAt notification else startsAt in
  time.Before startsAt now.

Definition dayStart (t : time.Time) : time.Time := time.midnight t.

(** The variables of [Notify] that its closures share: the queue, the timer
    armed for its head, and what has been sent on [dst] so far. *)
Record loopState : Type := mkLoopState {
  queue : list Notification;
  notificationTimer : time.Timer;
  sent : list Notification
}.

(** The purge loop of [queueNext]. *)
Fixpoint purge (n : Notifier) (now : time.Time) (notifications : list Notification)
  : list Notification :=
  match notifications with
  | [] => []
  | head :: rest => if shouldSkip n head now then purge n now rest else notifications
  end.

Definition queueNext (n : Notifier) (now : time.Time) (s : loopState) : loopState :=
  let timer := time.Stop (notificationTimer s) in
  let notifications := purge n now (queue s) in
  match notifications with
  | [] => mkLoopState notifications timer (sent s)
  | next :: _ =>
      mkLoopState notifications (time.Armed (time.Sub (RemindedAt next) now)) (sent s)
  end.

Definition refreshNotifications (n : Notifier) (order : list Calendar) (now : time.Time)
    (s : loopState) : outcome loopState :=
  let dayStart := dayStart now in
  let dayEnd := time.Add dayStart Day in
  match notifications n order dayStart dayEnd with
  | Panic msg => Panic msg
  | Ok notifications =>
      Ok (queueNext n now (mkLoopState notifications (notificationTimer s) (sent s)))
  end.

(** What the [select] of the loop can receive: the context is done; the day
    ticker ticks; a value arrives on [n.update] at time [now]; the
    notification timer fires, after which either [dst] takes the head of the
    queue ([accepted]) or the context is done first.  A refresh comes with
    the order in which it ranges over the tracked calendars. *)
Inductive loopEvent : Type :=
| ctxDone
| dayTick (now : time.Time) (order : list Calendar)
| updateReceived (now : time.Time) (order : list Calendar)
| timerFired (now : time.Time) (accepted : bool).

(** How a call of [Notify] stands: still in its loop, returned with the
    context's error, or panicked. *)
Inductive run : Type :=
| Running (n : Notifier) (s : loopState)
| Returned (n : Notifier) (s : loopState)
| Panicked (n : Notifier) (msg : string).

(** The first [select] of [Notify]: the call panics when [done] is closed. *)
Definition Notify_enter (n : Notifier) : outcome Notifier :=
  if done n then Panic "notifier cannot be reused" else Ok n.

(** The deferred [close(n.done)], run when the call leaves [Notify]. *)
Definition Notify_leave (n : Notifier) : outcome Notifier :=
  if done n then Panic "close of closed channel"
  else Ok (mkNotifier (opts n) true (update n) (state n)).

(** One turn of the loop. *)
Definition loopStep (n : Notifier) (s : loopState) (ev : loopEvent) : run :=
  match ev with
  | ctxDone => Returned n s
  | dayTick now order =>
      match refreshNotifications n order (time.In now (Notifier_Location n)) s with
      | Panic msg => Panicked n msg
      | Ok s' => Running n s'
      end
  | updateReceived now order =>
      let n := mkNotifier (opts n) (done n) false (state n) in
      match refreshNotifications n order (time.In now (Notifier_Location n)) s with
      | Panic msg => Panicked n msg
      | Ok s' => Running n s'
      end
  | timerFired now accepted =>
      match queue s with
      | [] => Panicked n "timer fired but no notifications are queued"
      | head :: rest =>
          if accepted
          then
            Running n
              (queueNext n (time.In now (Notifier_Location n))
                 (mkLoopState rest (notificationTimer s) (sent s ++ [head])))
          else Returned n s
      end
  end.

Fixpoint loop (n : Notifier) (s : loopState) (trace : list loopEvent) : run :=
  match trace with
  | [] => Running n s
  | ev :: rest =>
      match loopStep n s ev with
      | Running n' s' => loop n' s' rest
      | r => r
      end
  end.

(** [Notify] run by one goroutine against the events of [trace]; a call that
    leaves the function closes [done] on its way out. *)
Definition Notify (n : Notifier) (trace : list loopEvent) : run :=
  match Notify_enter n with
  | Panic msg => Panicked n msg
  | Ok n =>
      match loop n (mkLoopState [] time.NoTimer []) trace with
      | Running n' s => Running n' s
      | Returned n' s =>
          match Notify_leave n' with
          | Ok n'' => Returned n'' s
          | Panic msg => Panicked n' msg
          end
      | Panicked n' msg =>
          match Notify_leave n' with
          | Ok n'' => Panicked n'' msg
          | Panic _ => Panicked n' msg
          end
      end
  end.

(** ** Package [main], and what it uses of [time], [fmt] and [strings] *)

(** [lessThanHalf x y] of package [time]: [uint64(x)+uint64(x) < uint64(y)]. *)
Definition lessThanHalf (x y : time.Duration) : bool :=
  (2 * x) mod 2 ^ 64 <? y mod 2 ^ 64.

(** [d.Round(m)]: [d] rounded to the nearest multiple of [m], halfway values
    away from zero; the extreme [Duration] when the result overflows. *)
Definition Duration_Round (d m : time.Duration) : time.Duration :=
  if m <=? 0 then d
  else
    let r := Z.rem d m in
    if d <? 0
    then
      let r := - r in
      if lessThanHalf r m then d + r
      else
        let d1 := wrap64 (d - m + r) in
        if d1 <? d then d1 else minInt64
    else
      if lessThanHalf r m then d - r
      else
        let d1 := wrap64 (d + m - r) in
        if d <? d1 then d1 else maxInt64.

(** [t.Round(d)]: [t] rounded to the nearest multiple of [d] since the zero
    time, halfway values up. *)
Definition Time_Round (t : time.Time) (d : time.Duration) : time.Time :=
  if d <=? 0 then t
  else
    let r := (time.instant t - time.instant time.zero) mod d in
    if lessThanHalf r d then time.Add t (- r) else time.Add t (d - r).

(** [t.Unix()]: the seconds since the Unix epoch. *)
Definition Unix (t : time.Time) : Z := time.instant t / 1000000000.

(** What the verb [%d] of [fmt] prints for an integer. *)
Definition formatInt (z : Z) : string := NilZero.string_of_int (Z.to_int z).

(** The white space [strings.TrimSpace] cuts from a string of ASCII. *)
Definition isSpace (c : Ascii.ascii) : bool :=
  let n := Ascii.nat_of_ascii c in
  ((9 <=? n) && (n <=? 13) || (n =? 32))%nat.

Fixpoint trimLeft (s : string) : string :=
  match s with
  | EmptyString => EmptyString
  | String c rest => if isSpace c then trimLeft rest else s
  end.

Fixpoint trimRight (s : string) : string :=
  match s with
  | EmptyString => EmptyString
  | String c rest =>
      match trimRight rest with
      | EmptyString => if isSpace c then EmptyString else String c EmptyString
      | rest' => String c rest'
      end
  end.

Definition TrimSpace (s : string) : string := trimRight (trimLeft s).

Definition humanDuration (d : time.Duration) : string :=
  let d := Duration_Round d time.Minute in
  let s := ""%string in
  let '(s, d) :=
    if time.Hour <? d
    then
      let h := Z.quot d time.Hour in
      let d := d - h * time.Hour in
      if h =? 1
      then ((s ++ formatInt h ++ " hour ")%string, d)
      else ((s ++ formatInt h ++ " hours ")%string, d)
    else (s, d) in
  let '(s, d) :=
    if time.Minute <? d
    then
      let m := Z.quot d time.Minute in
      let d := d - m * time.Minute in
      if m =? 1
      then ((s ++ formatInt m ++ " minute ")%string, d)
      else ((s ++ formatInt m ++ " minutes ")%string, d)
    else (s, d) in
  TrimSpace s.

(** A field of a Discord embed. *)
Record EmbedField : Type := mkEmbedField {
  EmbedField_Name : string;
  EmbedField_Value : string;
  EmbedField_Inline : bool
}.

(** The fields of the embed [createNotificationMessage] builds. *)
Definition embedFields (notification : Notification) : list EmbedField :=
  let event := Notification_Event notification in
  let fields :=
    [mkEmbedField "Start Time" ("<t:" ++ formatInt (Unix (StartsAt event)) ++ ":R>") true;
     mkEmbedField "Duration" (humanDuration (time.Sub (StartsAt event) (EndsAt event))) true] in
  if negb (String.eqb (Location event) "")
  then fields ++ [mkEmbedField "Location" (Location event) true]
  else fields.

(** The loop of [refreshCalendar] over the tracked calendars, from the
    [i]-th on; [exchange i] is what the HTTP exchange of the [i]-th
    calendar yields and what other goroutines store during its refresh.
    The result is [changed] and the calendars after their refreshes. *)
Fixpoint refreshEach (exchange : nat -> Response * option (option ICSCalendar)) (i : nat)
    (calendars : list OnlineICSCalendar) (changed : bool)
  : bool * list OnlineICSCalendar :=
  match calendars with
  | [] => (changed, [])
  | cal :: rest =>
      let '((u, err), cal) := Refresh cal (fst (exchange i)) (snd (exchange i)) in
      let changed :=
        match err with
        | Some _ => changed
        | None => if u then true else changed
        end in
      let '(changed, rest) := refreshEach exchange (S i) rest changed in
      (changed, cal :: rest)
  end.

(** [refreshCalendar], the closure of [run]: every calendar is refreshed and
    the notifier is invalidated when one of them changed. *)
Definition refreshCalendar (notifier : Notifier)
    (exchange : nat -> Response * option (option ICSCalendar))
    (calendars : list OnlineICSCalendar) : Notifier * list OnlineICSCalendar :=
  let '(changed, calendars) := refreshEach exchange 0 calendars false in
  (if changed then Invalidate notifier else notifier, calendars).

(** ** Package [clocker] *)

(** [getDurationForNextFrame]; [now1], [now2] and [now3] are what its three
    calls of [time.Now] return. *)
Definition getDurationForNextFrame (frame : time.Duration) (now1 now2 now3 : time.Time)
  : time.Duration :=
  let tick := Time_Round now1 frame in
  let s := time.Sub tick now2 in
  if 0 <? s then s else time.Sub (time.Add tick frame) now3.

(** ** Notions the properties are stated with *)

(** [t] lies strictly inside the open interval from [start] to [end_]. *)
Definition strictlyInside (start end_ t : time.Time) : Prop :=
  time.instant start < time.instant t < time.instant end_.

(** The start of [e], or with [includeReminders] the time of one of its
    reminders, lies strictly inside the interval. *)
Definition withinWindow (e : Event) (start end_ : time.Time) (includeReminders : bool) : Prop :=
  strictlyInside start end_ (StartsAt e) \/
  (includeReminders = true /\
   exists r, In r (Reminders e) /\ strictlyInside start end_ (RemindAt r)).

(** An instant that [UnixNano] reports without overflow. *)
Definition inUnixNanoRange (t : time.Time) : Prop :=
  minInt64 <= time.instant t <= maxInt64.

(** The action default reminders are tagged with. *)
Definition defaultAction (o : EventsOpts) : ReminderAction :=
  if String.eqb (DefaultReminderAction o) ""%string
  then ReminderActionDisplay
  else DefaultReminderAction o.

(** The reminders of the custom extractor, none when there is no extractor. *)
Definition customReminders (o : EventsOpts) (e : Event) : list Reminder :=
  match ParseReminder o with
  | Some parse => parse e
  | None => []
  end.

(** A calendar document with the given components. *)
Definition document (children : list ical.Component) : ICSCalendar :=
  NewICS 0 (ical.mkCalendar children None).

(** The result of a query owes exactly the events [evs] to the component
    [src] of the document: with [src] in it the query returns, up to order,
    [evs] more than without. *)
Definition contributes (pre : list ical.Component) (src : ical.Component)
    (post : list ical.Component) (start end_ : time.Time) (opts : EventsOpts)
    (evs : list Event) : Prop :=
  exists withSrc withoutSrc,
    ICSCalendar_EventsBetween (document (pre ++ src :: post)) start end_ opts = Ok withSrc /\
    ICSCalendar_EventsBetween (document (pre ++ post)) start end_ opts = Ok withoutSrc /\
    Permutation withSrc (evs ++ withoutSrc).

(** The query does not pass over [src] before it looks at its recurrence:
    it is an event that is not left out as cancelled. *)
Definition lookedAt (src : ical.Component) (opts : EventsOpts) : Prop :=
  ical.Name src = ical.CompEvent /\
  (ExcludeCancelled opts = false \/ ical.Status src <> EventCancelled).

(** The time a notification is judged late by. *)
Definition relevantTime (n : Notifier) (notification : Notification) : time.Time :=
  if SkipPastNotifications (opts n)
  then RemindedAt notification
  else StartsAt (Notification_Event notification).

(** An event as [notifyingEvents] leaves it: its reminders sorted, the
    latest first. *)
Definition remindersSorted (ev : Event) : Event :=
  set_Reminders ev (slices.SortFunc laterReminderFirst (Reminders ev)).



(** A fetch that fails: no request, no response, a status other than 200,
    or a body that does not parse. *)
Definition fetchFailed (resp : Response) : Prop :=
  match resp with
  | RequestFailed _ => True
  | DoFailed _ => True
  | Replied StatusCode _ parsed =>
      StatusCode <> 200 \/ exists err, parsed = Err err
  end.

(** ** Sample data *)

(** A zone eight hours west of UTC. *)
Definition pacific : time.Location := time.FixedZone 1 (-28800).

(** Midnight of November 1, 2022 in that zone, and times after it. *)
Definition midnightNov1 : time.Time := time.mkTime (1667289600 * 1000000000) pacific.

Definition afterMidnight (d : time.Duration) : time.Time := time.Add midnightNov1 d.

(** A recurrence set of [count] weekly occurrences from [first] on. *)
Definition weekly (first : Z) (count : nat) : rrule.RuleSet :=
  rrule.mkRuleSet
    (fun after before inc =>
       filter
         (fun t =>
            if inc
            then (time.instant after <=? time.instant t)
                 && (time.instant t <=? time.instant before)
            else (time.instant after <? time.instant t)
                 && (time.instant t <? time.instant before))
         (map (fun k => time.mkTime (first + Z.of_nat k * (7 * Day)) (time.zone after))
              (seq 0 count))).

(** A lecture from 17:00 to 19:50 on November 1, with a status and with or
    without a weekly recurrence. *)
Definition lectureProps : ical.Props :=
  [ical.mkProp "SUMMARY" "GEOL 101L"; ical.mkProp "LOCATION" "MH 203"].

Definition lectureStart : Z := time.instant (afterMidnight (17 * time.Hour)).
Definition lectureEnd : Z := time.instant (afterMidnight (17 * time.Hour + 50 * time.Minute)).

Definition lecture (status : string) (recurring : bool) : ical.Component :=
  ical.mkComponent "VEVENT" lectureProps status
    (fun loc => Some (time.mkTime lectureStart loc))
    (fun loc => Some (time.mkTime lectureEnd loc))
    (fun loc => if recurring then Some (weekly lectureStart 10) else None).

(** The same lecture with an end that cannot be read. *)
Definition lectureWithoutEnd : ical.Component :=
  ical.mkComponent "VEVENT" lectureProps "CONFIRMED"
    (fun loc => Some (time.mkTime lectureStart loc))
    (fun loc => None)
    (fun loc => None).

Definition noOpts : EventsOpts := mkEventsOpts None [] ""%string false false.

Definition excludeCancelled : EventsOpts := mkEventsOpts None [] ""%string false true.

(** Reminders ten minutes before an event and at its start, searched for. *)
Definition tenMinutesAndStart : EventsOpts :=
  mkEventsOpts None [10 * time.Minute; 0] ""%string true false.

Definition excludeCancelledWithReminders : EventsOpts :=
  mkEventsOpts None [10 * time.Minute; 0] ""%string true true.

(** The lecture as a calendar returns it when asked for both reminders, the
    calendar that holds it, and notifier options with and without
    [SkipPastNotifications]. *)
Definition lectureEvent : Event :=
  createEvent (lecture "CONFIRMED" false)
    (time.mkTime lectureStart pacific) (time.mkTime lectureEnd pacific) tenMinutesAndStart.

Definition lectureCalendar : Calendar := asCalendar 7 (document [lecture "CONFIRMED" false]).

Definition skipPast : NotifierOpts := mkNotifierOpts tenMinutesAndStart (Some pacific) true.

Definition deliverPast : NotifierOpts := mkNotifierOpts tenMinutesAndStart (Some pacific) false.

(** The notification of the lecture due ten minutes before it. *)
Definition tenMinutesBefore : Notification :=
  mkNotification lectureCalendar (remindersSorted lectureEvent)
    (afterMidnight (17 * time.Hour - 10 * time.Minute)).

(** The state in which [Notify] enters its loop. *)
Definition emptyLoop : loopState := mkLoopState [] time.NoTimer [].

(** A notifier that tracks the calendar of the lecture. *)
Definition lectureNotifier : Notifier :=
  Update (NewNotifier pacific deliverPast) (fun st => AddCalendar st lectureCalendar).

(** A document at an address, with the bytes it encodes to. *)
Definition encodedDocument (addr : nat) (bytes : list Byte.byte) : ICSCalendar :=
  NewICS addr (ical.mkCalendar [lecture "CONFIRMED" false] (Some bytes)).

(** The notifier test: default reminders at the start of each event, and a
    mock calendar with an event in 300ms that has reminders 150ms ago and in
    150ms, and an event in a day and 500ms with a reminder in 500ms, all
    counted from 03:00. *)
Definition testNow : time.Time := afterMidnight (3 * time.Hour).

Definition testEvents : list Event :=
  [mkEvent (time.Add testNow (300 * time.Millisecond))
           (time.Add testNow (450 * time.Millisecond)) ""%string ""%string ""%string ""%string
           [mkReminder ""%string (time.Add testNow (-150 * time.Millisecond));
            mkReminder ""%string (time.Add testNow (150 * time.Millisecond))];
   mkEvent (time.Add testNow (500 * time.Millisecond + 1 * Day))
           (time.Add testNow (500 * time.Millisecond + 2 * Day)) ""%string ""%string ""%string ""%string
           [mkReminder ""%string (time.Add testNow (500 * time.Millisecond))]].

Definition testCalendar : Calendar := asCalendar 3 (newMockCalendar testEvents).

Definition testNotifier : Notifier :=
  Update
    (NewNotifier pacific
       (mkNotifierOpts (mkEventsOpts None [0] ""%string false false) None false))
    (fun st => AddCalendar st testCalendar).

(** The update is received 10ms before [testNow]; the timer then fires four
    times and the sink takes each notification. *)
Definition testTrace : list loopEvent :=
  [updateReceived (time.Add testNow (-10 * time.Millisecond)) [testCalendar];
   timerFired (time.Add testNow (-10 * time.Millisecond)) true;
   timerFired (time.Add testNow (150 * time.Millisecond)) true;
   timerFired (time.Add testNow (300 * time.Millisecond)) true;
   timerFired (time.Add testNow (500 * time.Millisecond)) true].

(** How long before its event each notification sent by a run was due. *)
Definition remindedBefore (r : run) : list time.Duration :=
  match r with
  | Running _ s | Returned _ s =>
      map (fun x => time.Sub (StartsAt (Notification_Event x)) (RemindedAt x)) (sent s)
  | Panicked _ _ => []
  end.

(** The query passes over [src]: it is no event, it is cancelled while
    cancelled events are excluded, or its start or its end cannot be read in
    the location of the query. *)
Definition passedOver (src : ical.Component) (opts : EventsOpts) (location : time.Location)
  : Prop :=
  ical.Name src <> ical.CompEvent \/
  (ExcludeCancelled opts = true /\ ical.Status src = EventCancelled) \/
  ical.DateTimeStart src location = None \/
  ical.DateTimeEnd src location = None.

(** [l] is [l'] with some elements left out, the others in their order. *)
Inductive Subseq {A : Type} : list A -> list A -> Prop :=
| Subseq_nil : Subseq [] []
| Subseq_skip (x : A) (l l' : list A) : Subseq l l' -> Subseq l (x :: l')
| Subseq_take (x : A) (l l' : list A) : Subseq l l' -> Subseq (x :: l) (x :: l').

(** The queue is in ascending order of the times the notifications are due,
    as [CompareTime] compares them. *)
Definition sortedQueue (s : loopState) : Prop :=
  StronglySorted (fun a b => CompareTime (RemindedAt a) (RemindedAt b) <= 0) (queue s).

(** A timer is armed only when there is a notification to send. *)
Definition armedForHead (s : loopState) : Prop :=
  match notificationTimer s, queue s with
  | time.Armed _, [] => False
  | time.Armed d, head :: _ => exists now, d = time.Sub (RemindedAt head) now
  | _, _ => True
  end.

(** The event is the firing of the notification timer. *)
Definition isTimerFired (ev : loopEvent) : Prop :=
  match ev with
  | timerFired _ _ => True
  | _ => False
  end.

(** The state a run was last seen in, if it has not panicked. *)
Definition lastState (r : run) : option loopState :=
  match r with
  | Running _ s | Returned _ s => Some s
  | Panicked _ _ => None
  end.


(** A calendar whose query panics. *)
Definition brokenCalendar : Calendar :=
  mkCalendar 9 (fun _ _ _ => Panic "calendar failed").

(** * Properties *)

(** ** Integers and times *)

Lemma wrap64_small (z : Z) : minInt64 <= z <= maxInt64 -> wrap64 z = z.
Proof.
  unfold minInt64, maxInt64, wrap64.
  change (2 ^ 63) with 9223372036854775808.
  change (2 ^ 64) with 18446744073709551616.
  intros H. rewrite Z.mod_small; lia.
Qed.

Lemma neg_small (d : time.Duration) : minInt64 < d <= maxInt64 -> time.neg d = - d.
Proof.
  intros H. unfold time.neg. apply wrap64_small.
  unfold minInt64, maxInt64 in *. lia.
Qed.

Lemma Before_lt (t u : time.Time) : time.Before t u = true <-> time.instant t < time.instant u.
Proof. unfold time.Before. apply Z.ltb_lt. Qed.

Lemma After_lt (t u : time.Time) : time.After t u = true <-> time.instant u < time.instant t.
Proof. unfold time.After. apply Z.ltb_lt. Qed.

Lemma timeIncludes_spec (start end_ t : time.Time) :
  timeIncludes start end_ t = true <-> strictlyInside start end_ t.
Proof.
  unfold timeIncludes, strictlyInside.
  rewrite andb_true_iff, After_lt, Before_lt. tauto.
Qed.

Lemma Sub_bounds (t u : time.Time) : minInt64 <= time.Sub t u <= maxInt64.
Proof.
  unfold time.Sub, minInt64, maxInt64. cbv zeta.
  destruct (Z.ltb_spec (time.instant t - time.instant u) (- 2 ^ 63));
    [lia|].
  destruct (Z.ltb_spec (2 ^ 63 - 1) (time.instant t - time.instant u)); lia.
Qed.

Lemma Sub_negative (t u : time.Time) :
  time.instant t < time.instant u -> time.Sub t u < 0.
Proof.
  intros H. unfold time.Sub, minInt64, maxInt64. cbv zeta.
  destruct (Z.ltb_spec (time.instant t - time.instant u) (- 2 ^ 63));
    [lia|].
  destruct (Z.ltb_spec (2 ^ 63 - 1) (time.instant t - time.instant u)); lia.
Qed.

Lemma Compare_neg (x y : Z) : cmp.Compare x y < 0 <-> x < y.
Proof.
  unfold cmp.Compare.
  destruct (Z.ltb_spec x y); [lia|].
  destruct (Z.ltb_spec y x); lia.
Qed.

Lemma Compare_nonpos (x y : Z) : cmp.Compare x y <= 0 <-> x <= y.
Proof.
  unfold cmp.Compare.
  destruct (Z.ltb_spec x y); [lia|].
  destruct (Z.ltb_spec y x); lia.
Qed.

Lemma CompareTime_nonpos (a b : time.Time) :
  CompareTime a b <= 0 <-> time.UnixNano a <= time.UnixNano b.
Proof. unfold CompareTime. apply Compare_nonpos. Qed.

(** ** Sorting *)

Section SortFuncFacts.
Context {A : Type} (cmp : A -> A -> Z).

Lemma insert_perm (x : A) (l : list A) : Permutation (slices.insert cmp x l) (x :: l).
Proof.
  induction l as [|y l IH]; simpl.
  - reflexivity.
  - destruct (cmp x y <? 0).
    + reflexivity.
    + rewrite IH. apply perm_swap.
Qed.

Lemma SortFunc_perm (l : list A) : Permutation (slices.SortFunc cmp l) l.
Proof.
  induction l as [|x l IH]; simpl.
  - reflexivity.
  - rewrite insert_perm. now apply perm_skip.
Qed.

Context (key : A -> Z).
Hypothesis cmp_key : forall a b, cmp a b < 0 <-> key a < key b.

Lemma insert_sorted (x : A) (l : list A) :
  StronglySorted (fun a b => key a <= key b) l ->
  StronglySorted (fun a b => key a <= key b) (slices.insert cmp x l).
Proof.
  induction l as [|y l IH]; simpl; intros Hs.
  - constructor; [constructor | constructor].
  - inversion Hs as [|? ? Hl Hy]; subst.
    destruct (Z.ltb_spec (cmp x y) 0) as [Hlt | Hge].
    + apply cmp_key in Hlt. constructor; [assumption|].
      constructor; [lia|].
      eapply Forall_impl; [|exact Hy]. simpl. intros; lia.
    + assert (key y <= key x) by (destruct (Z.lt_ge_cases (key x) (key y)) as [Hc|Hc];
        [apply cmp_key in Hc; lia | lia]).
      constructor; [now apply IH|].
      eapply Permutation_Forall; [symmetry; apply insert_perm|].
      constructor; assumption.
Qed.

Lemma SortFunc_sorted (l : list A) :
  StronglySorted (fun a b => key a <= key b) (slices.SortFunc cmp l).
Proof.
  induction l as [|x l IH]; simpl.
  - constructor.
  - now apply insert_sorted.
Qed.

End SortFuncFacts.

Lemma StronglySorted_impl {A : Type} (R R' : A -> A -> Prop) (l : list A) :
  (forall a b, R a b -> R' a b) -> StronglySorted R l -> StronglySorted R' l.
Proof.
  intros Himpl Hs. induction Hs as [|a l Hs IH Hall]; constructor.
  - exact IH.
  - eapply Forall_impl; [|exact Hall]. intros b. apply Himpl.
Qed.

(** ** Reminders of an event *)

Lemma NewRemindersFromDuration_map (startsAt : time.Time) (durations : list time.Duration)
    (action : ReminderAction) :
  NewRemindersFromDuration startsAt durations action =
  map (fun d => mkReminder action (time.Add startsAt (time.neg d))) durations.
Proof.
  unfold NewRemindersFromDuration, NewReminders, CalculateReminderTimes, mapSlice.
  now rewrite map_map.
Qed.

Lemma EventReminders_eq (o : EventsOpts) (e : Event) :
  EventReminders o e =
  map (fun d => mkReminder (defaultAction o) (time.Add (StartsAt e) (time.neg d)))
      (DefaultReminders o)
  ++ customReminders o e.
Proof.
  unfold EventReminders, customReminders, defaultAction. cbv zeta.
  rewrite NewRemindersFromDuration_map.
  destruct (ParseReminder o); [reflexivity | now rewrite app_nil_r].
Qed.

(** C6: the reminders of an event are one reminder per configured default
    duration, in the configured order, each at the start of the event minus
    the duration and tagged with the configured default action, or with
    DISPLAY when none is configured; after them come the reminders of the
    custom extractor, in the order it returns them.  Nothing is removed:
    the list is as long as the two together. *)
Theorem EventReminders_defaults_then_custom (o : EventsOpts) (e : Event) :
  EventReminders o e =
    map (fun d => mkReminder (defaultAction o) (time.Add (StartsAt e) (time.neg d)))
        (DefaultReminders o)
    ++ customReminders o e
  /\ (DefaultReminderAction o = ""%string -> defaultAction o = "DISPLAY"%string)
  /\ (DefaultReminderAction o <> ""%string -> defaultAction o = DefaultReminderAction o)
  /\ (forall d, minInt64 < d <= maxInt64 ->
        time.instant (time.Add (StartsAt e) (time.neg d)) = time.instant (StartsAt e) - d)
  /\ List.length (EventReminders o e) =
       (List.length (DefaultReminders o) + List.length (customReminders o e))%nat.
Proof.
  split; [apply EventReminders_eq|].
  split.
  { intros H. unfold defaultAction. now rewrite H. }
  split.
  { intros H. unfold defaultAction.
    destruct (String.eqb_spec (DefaultReminderAction o) ""%string); congruence. }
  split.
  { intros d Hd. simpl. rewrite neg_small by assumption. lia. }
  rewrite EventReminders_eq, length_app, length_map. reflexivity.
Qed.

Lemma earliest_fold (rest : list Reminder) :
  forall first,
    let m := fold_left
               (fun latest r =>
                  if time.Before (RemindAt r) (RemindAt latest) then r else latest)
               rest first in
    In m (first :: rest) /\
    time.instant (RemindAt m) <= time.instant (RemindAt first) /\
    Forall (fun r => time.instant (RemindAt m) <= time.instant (RemindAt r)) rest.
Proof.
  induction rest as [|r rest IH]; intros first; simpl.
  - split; [now left|]. split; [lia | constructor].
  - set (next := if time.Before (RemindAt r) (RemindAt first) then r else first).
    destruct (IH next) as (Hin & Hle & Hall).
    assert (Hnext : (next = r \/ next = first) /\
                    time.instant (RemindAt next) <= time.instant (RemindAt first) /\
                    time.instant (RemindAt next) <= time.instant (RemindAt r)).
    { unfold next, time.Before.
      destruct (Z.ltb_spec (time.instant (RemindAt r)) (time.instant (RemindAt first)));
        (split; [auto|]); lia. }
    destruct Hnext as (Hcase & Hf & Hr).
    split.
    { destruct Hin as [Hin | Hin].
      - rewrite <- Hin. destruct Hcase as [-> | ->]; [right; now left | now left].
      - right; now right. }
    split; [lia|].
    constructor; [lia | assumption].
Qed.

(** C7: on a list that is not empty [EarliestReminder] returns one of its
    reminders, and no reminder of the list is due before it; on the empty
    list it returns the zero reminder, due at the zero time. *)
Theorem EarliestReminder_minimum :
  (EarliestReminder [] = Reminder_zero /\ RemindAt Reminder_zero = time.zero) /\
  forall (r : Reminder) (l : list Reminder),
    In (EarliestReminder (r :: l)) (r :: l) /\
    Forall (fun x => time.instant (RemindAt (EarliestReminder (r :: l)))
                     <= time.instant (RemindAt x))
           (r :: l).
Proof.
  split; [split; reflexivity|].
  intros r l. unfold EarliestReminder.
  destruct (earliest_fold l r) as (Hin & Hle & Hall).
  split; [assumption|].
  constructor; assumption.
Qed.

(** ** Queries of an ICS calendar *)

Lemma visitComponent_app (start end_ : time.Time) (opts : EventsOpts)
    (location : time.Location) (chosenEvents : list Event) (component : ical.Component) :
  visitComponent start end_ opts location chosenEvents component =
  chosenEvents ++ visitComponent start end_ opts location [] component.
Proof.
  unfold visitComponent.
  destruct (negb _); [now rewrite app_nil_r|].
  destruct (_ && _); [now rewrite app_nil_r|].
  destruct (ical.DateTimeStart _ _); [|now rewrite app_nil_r].
  destruct (ical.DateTimeEnd _ _); [|now rewrite app_nil_r].
  destruct (ical.RecurrenceSet _ _); [reflexivity|].
  destruct (Within _ _ _ _); [reflexivity | now rewrite app_nil_r].
Qed.

Lemma fold_visitComponent (start end_ : time.Time) (opts : EventsOpts)
    (location : time.Location) (components : list ical.Component) :
  forall chosenEvents,
    fold_left (visitComponent start end_ opts location) components chosenEvents =
    chosenEvents ++ flat_map (visitComponent start end_ opts location []) components.
Proof.
  induction components as [|c components IH]; intros chosenEvents; simpl.
  - now rewrite app_nil_r.
  - rewrite IH, visitComponent_app, app_assoc. reflexivity.
Qed.

Lemma EventsBetween_document (children : list ical.Component) (start end_ : time.Time)
    (opts : EventsOpts) :
  time.Location_eqb (time.zone start) (time.zone end_) = true ->
  ICSCalendar_EventsBetween (document children) start end_ opts =
  Ok (slices.SortFunc CompareEvent
        (flat_map (visitComponent start end_ opts (time.zone start) []) children)).
Proof.
  intros Hloc. unfold ICSCalendar_EventsBetween. rewrite Hloc. simpl.
  now rewrite fold_visitComponent.
Qed.

Lemma EventsBetween_children (c : ICSCalendar) (start end_ : time.Time) (opts : EventsOpts) :
  ICSCalendar_EventsBetween c start end_ opts =
  ICSCalendar_EventsBetween (document (ical.Children (ICSCalendar_ical c))) start end_ opts.
Proof. reflexivity. Qed.

Lemma contributes_visitComponent (pre : list ical.Component) (src : ical.Component)
    (post : list ical.Component) (start end_ : time.Time) (opts : EventsOpts) :
  time.Location_eqb (time.zone start) (time.zone end_) = true ->
  contributes pre src post start end_ opts
    (visitComponent start end_ opts (time.zone start) [] src).
Proof.
  intros Hloc. unfold contributes.
  do 2 eexists. split; [now apply EventsBetween_document|].
  split; [now apply EventsBetween_document|].
  rewrite !SortFunc_perm, !flat_map_app. simpl.
  rewrite Permutation_app_comm, <- app_assoc.
  apply Permutation_app_head, Permutation_app_comm.
Qed.

Lemma Within_spec (e : Event) (start end_ : time.Time) (includeReminders : bool) :
  Within e start end_ includeReminders = true <->
  withinWindow e start end_ includeReminders.
Proof.
  unfold Within, withinWindow.
  destruct (timeIncludes start end_ (StartsAt e)) eqn:Hs.
  - apply timeIncludes_spec in Hs. tauto.
  - assert (Hn : ~ strictlyInside start end_ (StartsAt e)).
    { rewrite <- timeIncludes_spec. congruence. }
    destruct includeReminders.
    + rewrite existsb_exists. split.
      * intros (r & Hin & Hr). right. split; [reflexivity|].
        exists r. now rewrite <- timeIncludes_spec.
      * intros [H | (_ & r & Hin & Hr)]; [contradiction|].
        exists r. now rewrite timeIncludes_spec.
    + split; [discriminate|]. intros [H | (H & _)]; [contradiction | discriminate].
Qed.

Lemma visitComponent_lookedAt (src : ical.Component) (start end_ : time.Time)
    (opts : EventsOpts) (location : time.Location) (dtstart dtend : time.Time) :
  lookedAt src opts ->
  ical.DateTimeStart src location = Some dtstart ->
  ical.DateTimeEnd src location = Some dtend ->
  visitComponent start end_ opts location [] src =
  let event := createEvent src dtstart dtend opts in
  match ical.RecurrenceSet src location with
  | Some rrules =>
      map (fun startsAt =>
             createEvent src startsAt (time.Add startsAt (time.Sub dtend dtstart)) opts)
          (rrule.Between rrules start (recurrenceEnd event end_ opts) true)
  | None => if Within event start end_ (IncludeReminders opts) then [event] else []
  end.
Proof.
  intros (Hname & Hkept) Hstart Hend. unfold visitComponent.
  rewrite Hname, String.eqb_refl. simpl.
  assert (Hc : ExcludeCancelled opts && String.eqb (ical.Status src) EventCancelled = false).
  { destruct Hkept as [-> | Hne]; [reflexivity|].
    apply andb_false_iff. right. now apply String.eqb_neq. }
  rewrite Hc, Hstart, Hend. reflexivity.
Qed.

(** C1, as the code has it: for a query whose bounds share one location, an
    event of the document that has no recurrence, whose start and end can be
    read, and that is not left out as cancelled under [ExcludeCancelled], is
    in the result exactly when its start lies strictly between the bounds
    or, with [IncludeReminders], one of its reminders does. *)
Theorem nonrecurring_event_chosen_iff_within
    (pre : list ical.Component) (src : ical.Component) (post : list ical.Component)
    (start end_ : time.Time) (opts : EventsOpts) (dtstart dtend : time.Time) :
  time.Location_eqb (time.zone start) (time.zone end_) = true ->
  lookedAt src opts ->
  ical.DateTimeStart src (time.zone start) = Some dtstart ->
  ical.DateTimeEnd src (time.zone start) = Some dtend ->
  ical.RecurrenceSet src (time.zone start) = None ->
  let event := createEvent src dtstart dtend opts in
  StartsAt event = dtstart /\
  (withinWindow event start end_ (IncludeReminders opts) ->
   contributes pre src post start end_ opts [event]) /\
  (~ withinWindow event start end_ (IncludeReminders opts) ->
   contributes pre src post start end_ opts []).
Proof.
  intros Hloc Hlooked Hstart Hend Hrec event.
  pose proof (contributes_visitComponent pre src post start end_ opts Hloc) as Hc.
  rewrite (visitComponent_lookedAt src start end_ opts _ dtstart dtend Hlooked Hstart Hend)
    in Hc.
  cbv zeta in Hc. rewrite Hrec in Hc. fold event in Hc.
  split; [reflexivity|].
  split; intros Hw.
  - apply Within_spec in Hw. now rewrite Hw in Hc.
  - destruct (Within event start end_ (IncludeReminders opts)) eqn:HW.
    + apply Within_spec in HW. contradiction.
    + exact Hc.
Qed.

(** The lecture of November 1 is returned for that day. *)
Lemma nonrecurring_event_chosen_witness :
  contributes [] (lecture "CONFIRMED" false) [] midnightNov1 (afterMidnight Day) noOpts
    [createEvent (lecture "CONFIRMED" false)
       (time.mkTime lectureStart pacific) (time.mkTime lectureEnd pacific) noOpts].
Proof.
  refine (proj1 (proj2 (nonrecurring_event_chosen_iff_within
            [] (lecture "CONFIRMED" false) [] midnightNov1 (afterMidnight Day) noOpts
            (time.mkTime lectureStart pacific) (time.mkTime lectureEnd pacific)
            eq_refl _ eq_refl eq_refl eq_refl)) _).
  - split; [reflexivity | left; reflexivity].
  - left. unfold strictlyInside. vm_compute. split; reflexivity.
Defined.

(** C1 as stated fails: a cancelled lecture that starts strictly inside the
    queried day is not returned when cancelled events are excluded, and
    neither is a lecture whose end cannot be read. *)
Lemma cancelled_event_not_chosen :
  (ical.RecurrenceSet (lecture "CANCELLED" false) pacific = None /\
   ical.DateTimeStart (lecture "CANCELLED" false) pacific
     = Some (afterMidnight (17 * time.Hour)) /\
   strictlyInside midnightNov1 (afterMidnight Day) (afterMidnight (17 * time.Hour)) /\
   ICSCalendar_EventsBetween (document [lecture "CANCELLED" false])
     midnightNov1 (afterMidnight Day) excludeCancelled = Ok []) /\
  (ical.RecurrenceSet lectureWithoutEnd pacific = None /\
   ical.DateTimeStart lectureWithoutEnd pacific = Some (afterMidnight (17 * time.Hour)) /\
   ICSCalendar_EventsBetween (document [lectureWithoutEnd])
     midnightNov1 (afterMidnight Day) noOpts = Ok []).
Proof.
  repeat split; try reflexivity.
Qed.

Lemma Sub_exact (t u : time.Time) :
  minInt64 <= time.instant t - time.instant u <= maxInt64 ->
  time.Sub t u = time.instant t - time.instant u.
Proof.
  intros H. unfold time.Sub. cbv zeta.
  destruct (Z.ltb_spec (time.instant t - time.instant u) minInt64); [lia|].
  destruct (Z.ltb_spec maxInt64 (time.instant t - time.instant u)); lia.
Qed.

(** C2, as the code has it: for an event of the document with a recurrence
    set, whose start and end can be read and that is not left out as
    cancelled under [ExcludeCancelled], a query with [IncludeReminders] moves
    the upper bound of the recurrence search later by the start of the first
    occurrence minus the time of its earliest reminder, asks the recurrence
    set for the starts between the lower bound and that upper bound, both
    included, and returns for every such start, without a further test, an
    event that starts there and lasts as long as the first occurrence. *)
Theorem recurring_event_occurrences_chosen
    (pre : list ical.Component) (src : ical.Component) (post : list ical.Component)
    (start end_ : time.Time) (opts : EventsOpts) (dtstart dtend : time.Time)
    (rrules : rrule.RuleSet) :
  time.Location_eqb (time.zone start) (time.zone end_) = true ->
  lookedAt src opts ->
  ical.DateTimeStart src (time.zone start) = Some dtstart ->
  ical.DateTimeEnd src (time.zone start) = Some dtend ->
  ical.RecurrenceSet src (time.zone start) = Some rrules ->
  IncludeReminders opts = true ->
  let first := createEvent src dtstart dtend opts in
  let furthest := EarliestReminder (Reminders first) in
  let widenedEnd := time.Add end_ (time.Sub (StartsAt first) (RemindAt furthest)) in
  let occurrence startsAt :=
    createEvent src startsAt
      (time.Add startsAt (time.Sub (EndsAt first) (StartsAt first))) opts in
  contributes pre src post start end_ opts
    (map occurrence (rrule.Between rrules start widenedEnd true)) /\
  (forall startsAt,
     StartsAt (occurrence startsAt) = startsAt /\
     EndsAt (occurrence startsAt)
       = time.Add startsAt (time.Sub (EndsAt first) (StartsAt first))) /\
  (minInt64 <= time.instant (StartsAt first) - time.instant (RemindAt furthest) <= maxInt64 ->
   time.instant widenedEnd
     = time.instant end_
       + (time.instant (StartsAt first) - time.instant (RemindAt furthest))).
Proof.
  intros Hloc Hlooked Hstart Hend Hrec Hincl first furthest widenedEnd occurrence.
  pose proof (contributes_visitComponent pre src post start end_ opts Hloc) as Hc.
  rewrite (visitComponent_lookedAt src start end_ opts _ dtstart dtend Hlooked Hstart Hend)
    in Hc.
  cbv zeta in Hc. rewrite Hrec in Hc.
  unfold recurrenceEnd in Hc. rewrite Hincl in Hc.
  split; [exact Hc|].
  split; [intros startsAt; split; reflexivity|].
  intros Hrange. unfold widenedEnd. simpl.
  fold first. fold furthest.
  pose proof (Sub_exact (StartsAt first) (RemindAt furthest) Hrange) as He.
  simpl in He. fold first in He. fold furthest in He.
  lia.
Qed.

(** The weekly lecture is returned for November 1 with its two reminders. *)
Lemma recurring_event_occurrences_witness :
  contributes [] (lecture "CONFIRMED" true) [] midnightNov1 (afterMidnight Day)
    tenMinutesAndStart
    [createEvent (lecture "CONFIRMED" true)
       (time.mkTime lectureStart pacific) (time.mkTime lectureEnd pacific)
       tenMinutesAndStart].
Proof.
  exact (proj1 (recurring_event_occurrences_chosen
            [] (lecture "CONFIRMED" true) [] midnightNov1 (afterMidnight Day)
            tenMinutesAndStart
            (time.mkTime lectureStart pacific) (time.mkTime lectureEnd pacific)
            (weekly lectureStart 10)
            eq_refl (conj eq_refl (or_introl eq_refl)) eq_refl eq_refl eq_refl eq_refl)).
Defined.

(** C2 as stated fails: the recurrence set of a cancelled weekly lecture has
    an occurrence between the bounds, and the query that excludes cancelled
    events neither asks for it nor returns an event. *)
Lemma cancelled_recurring_event_not_chosen :
  ical.RecurrenceSet (lecture "CANCELLED" true) pacific = Some (weekly lectureStart 10) /\
  rrule.Between (weekly lectureStart 10) midnightNov1
    (time.Add (afterMidnight Day) (10 * time.Minute)) true
    = [afterMidnight (17 * time.Hour)] /\
  ICSCalendar_EventsBetween (document [lecture "CANCELLED" true])
    midnightNov1 (afterMidnight Day) excludeCancelledWithReminders = Ok [].
Proof.
  repeat split; reflexivity.
Qed.

(** ** The queue of the notifier *)

Lemma shouldSkip_spec (n : Notifier) (x : Notification) (now : time.Time) :
  shouldSkip n x now = true <-> time.instant (relevantTime n x) < time.instant now.
Proof.
  unfold shouldSkip, relevantTime. cbv zeta.
  destruct (SkipPastNotifications (opts n)); apply Before_lt.
Qed.

Lemma shouldSkip_false (n : Notifier) (x : Notification) (now : time.Time) :
  shouldSkip n x now = false <-> time.instant now <= time.instant (relevantTime n x).
Proof.
  pose proof (shouldSkip_spec n x now) as H.
  destruct (shouldSkip n x now).
  - split; [discriminate|]. intros Hle. apply proj1 in H. specialize (H eq_refl). lia.
  - split; [|reflexivity]. intros _.
    destruct (Z.lt_ge_cases (time.instant (relevantTime n x)) (time.instant now)) as [Hc|Hc];
      [apply H in Hc; discriminate | lia].
Qed.

Lemma purge_spec (n : Notifier) (now : time.Time) (l : list Notification) :
  exists dropped,
    l = dropped ++ purge n now l /\
    Forall (fun x => time.instant (relevantTime n x) < time.instant now) dropped /\
    match purge n now l with
    | [] => True
    | head :: _ => time.instant now <= time.instant (relevantTime n head)
    end.
Proof.
  induction l as [|x l IH]; simpl.
  - exists []. repeat split. constructor.
  - destruct (shouldSkip n x now) eqn:Hs.
    + destruct IH as (dropped & Heq & Hall & Hhead).
      exists (x :: dropped). split; [simpl; congruence|].
      split; [|assumption].
      constructor; [now apply shouldSkip_spec | assumption].
    + exists []. split; [reflexivity|]. split; [constructor|].
      now apply shouldSkip_false.
Qed.

Lemma queueNext_sent (n : Notifier) (now : time.Time) (s : loopState) :
  sent (queueNext n now s) = sent s.
Proof.
  unfold queueNext. cbv zeta. destruct (purge n now (queue s)); reflexivity.
Qed.

Lemma queueNext_queue (n : Notifier) (now : time.Time) (s : loopState) :
  queue (queueNext n now s) = purge n now (queue s).
Proof.
  unfold queueNext. cbv zeta. destruct (purge n now (queue s)); reflexivity.
Qed.

(** C3, as the code has it: re-arming drops, without sending them, the heads
    of the queue whose relevant time is strictly before now, and stops at the
    first head whose relevant time is now or later; it arms the timer for
    that head, or leaves the stopped timer when the queue is empty.  The
    relevant time is the time the notification is due when
    [SkipPastNotifications] is set and the start of its event otherwise.
    So with the flag unset a head that was due before now, for an event that
    has not started, stays in the queue with a timer that has already run
    out, and is sent as soon as the timer fires and the sink takes it. *)
Theorem queueNext_drops_heads_before_now (n : Notifier) (now : time.Time) (s : loopState) :
  let s' := queueNext n now s in
  (exists dropped,
     queue s = dropped ++ queue s' /\
     Forall (fun x => time.instant (relevantTime n x) < time.instant now) dropped) /\
  sent s' = sent s /\
  match queue s' with
  | [] => notificationTimer s' = time.Stop (notificationTimer s)
  | head :: _ =>
      time.instant now <= time.instant (relevantTime n head) /\
      notificationTimer s' = time.Armed (time.Sub (RemindedAt head) now)
  end /\
  (forall x, relevantTime n x =
             if SkipPastNotifications (opts n)
             then RemindedAt x
             else StartsAt (Notification_Event x)) /\
  (forall head rest,
     SkipPastNotifications (opts n) = false ->
     queue s = head :: rest ->
     time.instant (RemindedAt head) < time.instant now ->
     time.instant now <= time.instant (StartsAt (Notification_Event head)) ->
     queue s' = head :: rest /\
     (exists d, notificationTimer s' = time.Armed d /\ d < 0) /\
     forall fired, exists s'',
       loopStep n s' (timerFired fired true) = Running n s'' /\
       sent s'' = sent s ++ [head]).
Proof.
  intros s'.
  destruct (purge_spec n now (queue s)) as (dropped & Heq & Hall & Hhead).
  assert (Hq : queue s' = purge n now (queue s)).
  { unfold s', queueNext. cbv zeta. destruct (purge n now (queue s)); reflexivity. }
  assert (Hsent : sent s' = sent s).
  { unfold s', queueNext. cbv zeta. destruct (purge n now (queue s)); reflexivity. }
  split.
  { exists dropped. rewrite Hq. split; assumption. }
  split; [assumption|].
  split.
  { unfold s', queueNext in *. cbv zeta in *.
    destruct (purge n now (queue s)) as [|head rest]; simpl.
    - reflexivity.
    - split; [assumption | reflexivity]. }
  split; [reflexivity|].
  intros head rest Hflag Hqueue Hdue Hstart.
  assert (Hkeep : shouldSkip n head now = false).
  { apply shouldSkip_false. unfold relevantTime. now rewrite Hflag. }
  assert (Hs' : s' = mkLoopState (head :: rest)
                       (time.Armed (time.Sub (RemindedAt head) now)) (sent s)).
  { unfold s', queueNext. cbv zeta. rewrite Hqueue. simpl. now rewrite Hkeep. }
  rewrite Hs'. simpl.
  split; [reflexivity|].
  split.
  { eexists. split; [reflexivity|]. now apply Sub_negative. }
  intros fired. eexists. split; [reflexivity|].
  now rewrite queueNext_sent.
Qed.

(** A notifier that does not skip, ten minutes late for the reminder of a
    lecture that has not started. *)
Lemma queueNext_late_reminder_witness :
  queue (queueNext (NewNotifier pacific deliverPast)
           (afterMidnight (17 * time.Hour - 5 * time.Minute))
           (mkLoopState [tenMinutesBefore] time.NoTimer []))
    = [tenMinutesBefore].
Proof.
  refine (proj1 (proj2 (proj2 (proj2 (proj2
            (queueNext_drops_heads_before_now (NewNotifier pacific deliverPast)
               (afterMidnight (17 * time.Hour - 5 * time.Minute))
               (mkLoopState [tenMinutesBefore] time.NoTimer [])))))
            tenMinutesBefore [] eq_refl eq_refl _ _)).
  - reflexivity.
  - vm_compute. discriminate.
Defined.

(** C3 as stated fails: with [SkipPastNotifications] set, a notification due
    exactly now is not dropped; it stays at the head of the queue with a
    timer of no duration. *)
Lemma notification_due_now_not_dropped :
  time.instant (relevantTime (NewNotifier pacific skipPast) tenMinutesBefore)
    = time.instant (afterMidnight (17 * time.Hour - 10 * time.Minute)) /\
  shouldSkip (NewNotifier pacific skipPast) tenMinutesBefore
    (afterMidnight (17 * time.Hour - 10 * time.Minute)) = false /\
  queueNext (NewNotifier pacific skipPast)
    (afterMidnight (17 * time.Hour - 10 * time.Minute))
    (mkLoopState [tenMinutesBefore] time.NoTimer [])
    = mkLoopState [tenMinutesBefore] (time.Armed 0) [].
Proof.
  repeat split; reflexivity.
Qed.

(** ** Events in the hands of the notifier *)






(** ** Starting the notifier *)

Lemma loopStep_done (n : Notifier) (s : loopState) (ev : loopEvent) :
  match loopStep n s ev with
  | Running n' _ | Returned n' _ | Panicked n' _ => done n' = done n
  end.
Proof.
  destruct ev as [|now order|now order|now accepted]; simpl.
  - reflexivity.
  - destruct (refreshNotifications _ _ _ _); reflexivity.
  - destruct (refreshNotifications _ _ _ _); reflexivity.
  - destruct (queue s); [reflexivity|]. destruct accepted; reflexivity.
Qed.

Lemma loop_done (trace : list loopEvent) :
  forall n s,
    match loop n s trace with
    | Running n' _ | Returned n' _ | Panicked n' _ => done n' = done n
    end.
Proof.
  induction trace as [|ev trace IH]; intros n s; simpl.
  - reflexivity.
  - pose proof (loopStep_done n s ev) as Hstep.
    destruct (loopStep n s ev) as [n' s'| |]; try exact Hstep.
    specialize (IH n' s').
    destruct (loop n' s' trace); congruence.
Qed.

(** C9, as the code has it: once a call of [Notify] has returned, the channel
    [done] of the notifier is closed, and every later call of [Notify] on it
    panics at once, whatever has been done to the tracked calendars in
    between; it neither runs the loop nor returns an error. *)
Theorem Notify_after_return_panics (n : Notifier) (trace : list loopEvent)
    (n' : Notifier) (s : loopState) :
  Notify n trace = Returned n' s ->
  done n' = true /\
  (forall trace', Notify n' trace' = Panicked n' "notifier cannot be reused") /\
  (forall fn trace',
     Notify (Update n' fn) trace' = Panicked (Update n' fn) "notifier cannot be reused").
Proof.
  unfold Notify, Notify_enter. intros H.
  assert (Hdone : done n' = true).
  { destruct (done n); [discriminate|].
    destruct (loop n emptyLoop trace) as [n1 s1|n1 s1|n1 msg] eqn:Hloop;
      unfold emptyLoop in Hloop; rewrite Hloop in H; try discriminate.
    - unfold Notify_leave in H. destruct (done n1); [discriminate|].
      injection H as <- _. reflexivity.
    - destruct (Notify_leave n1); discriminate. }
  split; [exact Hdone|].
  split.
  - intros trace'. now rewrite Hdone.
  - intros fn trace'. simpl. now rewrite Hdone.
Qed.

(** A notifier whose loop ends with the context. *)
Lemma Notify_after_return_witness :
  Notify (mkNotifier deliverPast true false newNotifierState) [ctxDone]
    = Panicked (mkNotifier deliverPast true false newNotifierState)
        "notifier cannot be reused".
Proof.
  exact (proj1 (proj2 (Notify_after_return_panics
            (mkNotifier deliverPast false false newNotifierState) [ctxDone]
            (mkNotifier deliverPast true false newNotifierState) emptyLoop eq_refl))
          [ctxDone]).
Defined.

(** C9 as stated fails: while a first call of [Notify] is in its loop the
    channel [done] is still open, so a second call neither panics on entry
    nor on return; it runs the loop and returns with the context's error.
    It is the first call that panics when it returns afterwards. *)
Lemma second_Notify_while_first_runs :
  Notify (NewNotifier pacific deliverPast) []
    = Running (NewNotifier pacific deliverPast) emptyLoop /\
  Notify_enter (NewNotifier pacific deliverPast) = Ok (NewNotifier pacific deliverPast) /\
  Notify (NewNotifier pacific deliverPast) [ctxDone]
    = Returned (mkNotifier (opts (NewNotifier pacific deliverPast)) true false
                  newNotifierState)
        emptyLoop /\
  Notify_leave (mkNotifier (opts (NewNotifier pacific deliverPast)) true false
                  newNotifierState)
    = Panic "close of closed channel".
Proof.
  repeat split; reflexivity.
Qed.

(** ** Refreshing the online calendar *)

Lemma Equals_same_bytes (old new : ICSCalendar) (bytes : list Byte.byte) :
  ical.Encode (ICSCalendar_ical old) = Some bytes ->
  ical.Encode (ICSCalendar_ical new) = Some bytes ->
  Equals (Some old) (Some new) = true.
Proof.
  intros Ho Hn. unfold Equals.
  destruct (ICSCalendar_ptr_eqb (Some old) (Some new)); [reflexivity|].
  rewrite Ho, Hn. clear Ho Hn.
  induction bytes as [|b bytes IH]; simpl; [reflexivity|].
  rewrite IH, andb_true_r. now apply Byte.byte_dec_lb.
Qed.

Lemma Equals_nil (x : ICSCalendar) : Equals None (Some x) = false.
Proof. reflexivity. Qed.

Lemma fetchFailed_Refresh (c : OnlineICSCalendar) (resp : Response)
    (others : option (option ICSCalendar)) :
  fetchFailed resp -> exists err, Refresh c resp others = ((false, Some err), c).
Proof.
  destruct resp as [err|err|code status parsed]; simpl; intros H.
  - eexists; reflexivity.
  - eexists; reflexivity.
  - destruct (Z.eqb_spec code 200) as [->|Hne]; simpl.
    + destruct H as [H | (err & ->)]; [congruence|]. eexists; reflexivity.
    + eexists; reflexivity.
Qed.

Lemma Refresh_changed (c : OnlineICSCalendar) (resp : Response)
    (others : option (option ICSCalendar)) (err : option error) (c' : OnlineICSCalendar) :
  Refresh c resp others = ((true, err), c') ->
  err = None /\
  exists status newCalendar,
    resp = Replied 200 status (Value newCalendar) /\
    Equals (Load c) (Some newCalendar) = false /\
    CompareAndSwap (match others with Some p => Store c p | None => c end)
      (Load c) (Some newCalendar) = (true, c') /\
    Load c' = Some newCalendar.
Proof.
  destruct resp as [e|e|code status parsed]; simpl; try discriminate.
  destruct (Z.eqb_spec code 200) as [->|Hne]; simpl; [|discriminate].
  destruct parsed as [newCalendar|e]; [|discriminate].
  destruct (Equals (Load c) (Some newCalendar)) eqn:Heq; [discriminate|].
  destruct (CompareAndSwap _ (Load c) (Some newCalendar)) as [swapped c1] eqn:Hcas.
  destruct swapped; simpl; [|discriminate].
  intros H. injection H as <- <-.
  split; [reflexivity|].
  exists status, newCalendar. repeat split; try assumption.
  unfold CompareAndSwap in Hcas.
  destruct (ICSCalendar_ptr_eqb _ (Load c)); [|discriminate].
  injection Hcas as <-. reflexivity.
Qed.

Lemma Refresh_lost_race (c : OnlineICSCalendar) (status : string) (newCalendar : ICSCalendar)
    (others : option (option ICSCalendar)) :
  fst (CompareAndSwap (match others with Some p => Store c p | None => c end)
         (Load c) (Some newCalendar)) = false ->
  fst (Refresh c (Replied 200 status (Value newCalendar)) others) = (false, None).
Proof.
  simpl. intros H.
  destruct (Equals (Load c) (Some newCalendar)); [reflexivity|].
  destruct (CompareAndSwap _ (Load c) (Some newCalendar)) as [swapped c1].
  simpl in H. subst swapped. reflexivity.
Qed.

(** C5: [Refresh] reports no change when the fetched document and the
    published one encode to the same bytes; when the fetch or the parse
    fails it returns the error and leaves the published snapshot as it is;
    and it reports a change only when its own compare-and-swap puts the
    fetched document in place, so that a call whose compare-and-swap fails
    reports no change. *)
Theorem Refresh_changed_only_when_swapped (c : OnlineICSCalendar)
    (others : option (option ICSCalendar)) :
  (forall status old new bytes,
     Load c = Some old ->
     ical.Encode (ICSCalendar_ical old) = Some bytes ->
     ical.Encode (ICSCalendar_ical new) = Some bytes ->
     Refresh c (Replied 200 status (Value new)) others = ((false, None), c)) /\
  (forall resp,
     fetchFailed resp ->
     exists err, Refresh c resp others = ((false, Some err), c)) /\
  (forall resp err c',
     Refresh c resp others = ((true, err), c') ->
     err = None /\
     exists status new,
       resp = Replied 200 status (Value new) /\
       CompareAndSwap (match others with Some p => Store c p | None => c end)
         (Load c) (Some new) = (true, c') /\
       Load c' = Some new) /\
  (forall status new,
     fst (CompareAndSwap (match others with Some p => Store c p | None => c end)
            (Load c) (Some new)) = false ->
     fst (Refresh c (Replied 200 status (Value new)) others) = (false, None)).
Proof.
  split.
  { intros status old new bytes Hload Ho Hn. simpl.
    rewrite Hload, (Equals_same_bytes old new bytes Ho Hn). reflexivity. }
  split; [intros resp; apply fetchFailed_Refresh|].
  split.
  { intros resp err c' H.
    destruct (Refresh_changed c resp others err c' H)
      as (He & status & new & Hr & _ & Hcas & Hl).
    split; [exact He|]. exists status, new. repeat split; assumption. }
  intros status new. apply Refresh_lost_race.
Qed.

(** C10: on an online calendar that has published no snapshot, and on which
    no other call publishes one meanwhile, a [Refresh] whose fetch and parse
    succeed publishes the fetched document and reports a change: [Equals]
    holds of the nil snapshot and no document. *)
Theorem first_Refresh_publishes (c : OnlineICSCalendar) (status : string)
    (newCalendar : ICSCalendar) :
  Load c = None ->
  (forall x, Equals None (Some x) = false) /\
  Refresh c (Replied 200 status (Value newCalendar)) None
    = ((true, None), Store c (Some newCalendar)) /\
  Load (Store c (Some newCalendar)) = Some newCalendar.
Proof.
  intros Hload.
  split; [intros x; apply Equals_nil|].
  split; [|reflexivity].
  simpl. rewrite Hload. simpl.
  unfold CompareAndSwap. rewrite Hload. reflexivity.
Qed.

(** The first refresh of a calendar just created. *)
Lemma first_Refresh_witness :
  Refresh (NewOnlineICSCalendar "https://example.org/calendar.ics")
    (Replied 200 "200 OK" (Value (document [lecture "CONFIRMED" false]))) None
  = ((true, None),
     Store (NewOnlineICSCalendar "https://example.org/calendar.ics")
       (Some (document [lecture "CONFIRMED" false]))).
Proof.
  exact (proj1 (proj2 (first_Refresh_publishes
            (NewOnlineICSCalendar "https://example.org/calendar.ics") "200 OK"
            (document [lecture "CONFIRMED" false]) eq_refl))).
Defined.

(** An unchanged document: the bytes are those of the published snapshot. *)
Lemma Refresh_unchanged_witness :
  Refresh (mkOnlineICSCalendar "https://example.org/calendar.ics"
             (Some (encodedDocument 1 [Byte.x42; Byte.x45])))
    (Replied 200 "200 OK" (Value (encodedDocument 2 [Byte.x42; Byte.x45]))) None
  = ((false, None),
     mkOnlineICSCalendar "https://example.org/calendar.ics"
       (Some (encodedDocument 1 [Byte.x42; Byte.x45]))).
Proof.
  exact (proj1 (Refresh_changed_only_when_swapped
            (mkOnlineICSCalendar "https://example.org/calendar.ics"
               (Some (encodedDocument 1 [Byte.x42; Byte.x45]))) None)
          "200 OK"%string (encodedDocument 1 [Byte.x42; Byte.x45])
          (encodedDocument 2 [Byte.x42; Byte.x45]) [Byte.x42; Byte.x45]
          eq_refl eq_refl eq_refl).
Defined.

(** ** The notifications of a day *)






Lemma StronglySorted_in_range {A : Type} (R R' : A -> A -> Prop) (P : A -> Prop)
    (l : list A) :
  (forall a b, P a -> P b -> R a b -> R' a b) ->
  Forall P l -> StronglySorted R l -> StronglySorted R' l.
Proof.
  intros Himpl HP Hs. induction Hs as [|a l Hs IH Hall]; constructor.
  - apply IH. now inversion HP.
  - inversion HP as [|? ? Pa Pl]; subst.
    rewrite Forall_forall in *. intros b Hb. apply Himpl; auto.
Qed.




(** ** Scenarios of the repository's tests *)

(** [TestNotifier]: the notifications arrive 450ms, 150ms and 0ms before the
    first event, then a day before the second. *)
Example TestNotifier_expectDurations :
  remindedBefore (Notify testNotifier testTrace)
    = [450 * time.Millisecond; 150 * time.Millisecond; 0 * time.Millisecond; 1 * Day].
Proof. vm_compute. reflexivity. Qed.

(** [TestICSCalendar_nonRecurrence]: the lecture without recurrence is found
    in the week of November 1 and not in the week after. *)
Example TestICSCalendar_nonRecurrence :
  (exists ev, ICSCalendar_EventsBetween (document [lecture "CONFIRMED" false])
                midnightNov1 (afterMidnight (7 * Day)) noOpts = Ok [ev]) /\
  ICSCalendar_EventsBetween (document [lecture "CONFIRMED" false])
    (afterMidnight (7 * Day)) (afterMidnight (14 * Day)) noOpts = Ok [].
Proof.
  split; [eexists|]; vm_compute; reflexivity.
Qed.

(** [TestICSCalendar_recurrence]: the weekly lecture is found once in the
    week after, seven days after its first occurrence. *)
Example TestICSCalendar_recurrence_next_week :
  match ICSCalendar_EventsBetween (document [lecture "CONFIRMED" true])
          (afterMidnight (7 * Day)) (afterMidnight (14 * Day)) noOpts with
  | Ok evs => map (fun ev => (time.instant (StartsAt ev), time.instant (EndsAt ev))) evs
  | Panic _ => []
  end = [(lectureStart + 7 * Day, lectureEnd + 7 * Day)].
Proof. vm_compute. reflexivity. Qed.

(** A query whose bounds are in two locations panics. *)
Example EventsBetween_two_locations :
  ICSCalendar_EventsBetween (document [lecture "CONFIRMED" false])
    midnightNov1 (time.In (afterMidnight Day) time.UTC) noOpts
    = Panic "start and end must have the same location".
Proof. reflexivity. Qed.

(** * Further properties *)

(** ** Queries of an ICS calendar *)

Lemma CompareEvent_nonpos (a b : Event) :
  CompareEvent a b <= 0 <-> time.UnixNano (StartsAt a) <= time.UnixNano (StartsAt b).
Proof. unfold CompareEvent. apply CompareTime_nonpos. Qed.

(** X1: a query of an ICS calendar panics exactly when its two bounds are in
    different locations; otherwise it returns, and the events it returns are
    in ascending order of their start, as [CompareEvent] compares them (the
    order of the instants when these are within the range of [UnixNano]). *)
Theorem EventsBetween_returns_sorted (c : ICSCalendar) (start end_ : time.Time)
    (opts : EventsOpts) :
  (time.Location_eqb (time.zone start) (time.zone end_) = false <->
   ICSCalendar_EventsBetween c start end_ opts
     = Panic "start and end must have the same location") /\
  (time.Location_eqb (time.zone start) (time.zone end_) = true ->
   exists evs,
     ICSCalendar_EventsBetween c start end_ opts = Ok evs /\
     StronglySorted (fun a b => CompareEvent a b <= 0) evs /\
     (Forall (fun e => inUnixNanoRange (StartsAt e)) evs ->
      StronglySorted
        (fun a b => time.instant (StartsAt a) <= time.instant (StartsAt b)) evs)).
Proof.
  split.
  - unfold ICSCalendar_EventsBetween.
    destruct (time.Location_eqb (time.zone start) (time.zone end_)); simpl;
      split; intros H; try reflexivity; discriminate.
  - intros Hloc. unfold ICSCalendar_EventsBetween. rewrite Hloc. simpl.
    eexists. split; [reflexivity|].
    assert (Hs : StronglySorted (fun a b => CompareEvent a b <= 0)
                   (slices.SortFunc CompareEvent
                      (fold_left (visitComponent start end_ opts (time.zone start))
                         (ical.Children (ICSCalendar_ical c)) []))).
    { apply StronglySorted_impl
        with (R := fun a b => time.UnixNano (StartsAt a) <= time.UnixNano (StartsAt b)).
      - intros a b. apply CompareEvent_nonpos.
      - apply SortFunc_sorted. intros a b. unfold CompareEvent, CompareTime.
        apply Compare_neg. }
    split; [exact Hs|].
    intros Hrange.
    apply StronglySorted_in_range
      with (R := fun a b => CompareEvent a b <= 0)
           (P := fun e => inUnixNanoRange (StartsAt e)); try assumption.
    intros a b Ha Hb Hab. apply CompareEvent_nonpos in Hab.
    unfold time.UnixNano in Hab. rewrite !wrap64_small in Hab by assumption. exact Hab.
Qed.

(** The week of November 1 holds the lecture and nothing out of order. *)
Lemma EventsBetween_returns_sorted_witness :
  exists evs,
    ICSCalendar_EventsBetween
      (document [lecture "CONFIRMED" true; lecture "CONFIRMED" false])
      midnightNov1 (afterMidnight (14 * Day)) noOpts = Ok evs /\
    StronglySorted (fun a b => CompareEvent a b <= 0) evs.
Proof.
  destruct (proj2 (EventsBetween_returns_sorted
              (document [lecture "CONFIRMED" true; lecture "CONFIRMED" false])
              midnightNov1 (afterMidnight (14 * Day)) noOpts) eq_refl)
    as (evs & Hevs & Hs & _).
  exists evs. split; assumption.
Defined.

Lemma visitComponent_passedOver (src : ical.Component) (start end_ : time.Time)
    (opts : EventsOpts) (location : time.Location) (chosenEvents : list Event) :
  passedOver src opts location ->
  visitComponent start end_ opts location chosenEvents src = chosenEvents.
Proof.
  unfold passedOver, visitComponent. intros H.
  destruct (String.eqb_spec (ical.Name src) ical.CompEvent) as [Hn|Hn]; simpl;
    [|reflexivity].
  destruct H as [H | [(He & Hc) | [H | H]]].
  - contradiction.
  - rewrite He, Hc. reflexivity.
  - destruct (_ && _); [reflexivity|]. now rewrite H.
  - destruct (_ && _); [reflexivity|].
    destruct (ical.DateTimeStart src location); [|reflexivity]. now rewrite H.
Qed.

(** X2: a component that the query passes over (one that is no event, a
    cancelled event when cancelled events are excluded, an event whose start
    or end cannot be read) changes nothing: the query returns what it
    returns on the document without that component, and the other events
    are neither lost nor reordered. *)
Theorem passedOver_component_changes_nothing
    (pre : list ical.Component) (src : ical.Component) (post : list ical.Component)
    (start end_ : time.Time) (opts : EventsOpts) :
  passedOver src opts (time.zone start) ->
  ICSCalendar_EventsBetween (document (pre ++ src :: post)) start end_ opts
  = ICSCalendar_EventsBetween (document (pre ++ post)) start end_ opts.
Proof.
  intros H. unfold ICSCalendar_EventsBetween.
  destruct (negb _); [reflexivity|]. simpl.
  rewrite !fold_left_app. simpl.
  now rewrite visitComponent_passedOver.
Qed.

(** A lecture whose end cannot be read, next to one that is fine. *)
Lemma passedOver_component_witness :
  ICSCalendar_EventsBetween (document ([lecture "CONFIRMED" false] ++ lectureWithoutEnd :: []))
    midnightNov1 (afterMidnight Day) noOpts
  = ICSCalendar_EventsBetween (document ([lecture "CONFIRMED" false] ++ []))
      midnightNov1 (afterMidnight Day) noOpts.
Proof.
  exact (passedOver_component_changes_nothing
           [lecture "CONFIRMED" false] lectureWithoutEnd [] midnightNov1 (afterMidnight Day)
           noOpts (or_intror (or_intror (or_intror eq_refl)))).
Defined.

(** X3: without [IncludeReminders] the recurrence search is not widened: a
    recurring event that is looked at contributes one event for every start
    its recurrence set has between the two bounds of the query, the bounds
    themselves included, each lasting as long as the first occurrence. *)
Theorem recurring_event_without_reminder_search
    (pre : list ical.Component) (src : ical.Component) (post : list ical.Component)
    (start end_ : time.Time) (opts : EventsOpts) (dtstart dtend : time.Time)
    (rrules : rrule.RuleSet) :
  time.Location_eqb (time.zone start) (time.zone end_) = true ->
  lookedAt src opts ->
  ical.DateTimeStart src (time.zone start) = Some dtstart ->
  ical.DateTimeEnd src (time.zone start) = Some dtend ->
  ical.RecurrenceSet src (time.zone start) = Some rrules ->
  IncludeReminders opts = false ->
  contributes pre src post start end_ opts
    (map (fun startsAt =>
            createEvent src startsAt (time.Add startsAt (time.Sub dtend dtstart)) opts)
         (rrule.Between rrules start end_ true)).
Proof.
  intros Hloc Hlooked Hstart Hend Hrec Hincl.
  pose proof (contributes_visitComponent pre src post start end_ opts Hloc) as Hc.
  rewrite (visitComponent_lookedAt src start end_ opts _ dtstart dtend Hlooked Hstart Hend)
    in Hc.
  cbv zeta in Hc. rewrite Hrec in Hc.
  unfold recurrenceEnd in Hc. rewrite Hincl in Hc. exact Hc.
Qed.

(** The weekly lecture, asked for the second week of November. *)
Lemma recurring_event_without_reminder_search_witness :
  contributes [] (lecture "CONFIRMED" true) []
    (afterMidnight (7 * Day)) (afterMidnight (14 * Day)) noOpts
    [createEvent (lecture "CONFIRMED" true)
       (time.mkTime (lectureStart + 7 * Day) pacific)
       (time.mkTime (lectureEnd + 7 * Day) pacific) noOpts].
Proof.
  exact (recurring_event_without_reminder_search
           [] (lecture "CONFIRMED" true) []
           (afterMidnight (7 * Day)) (afterMidnight (14 * Day)) noOpts
           (time.mkTime lectureStart pacific) (time.mkTime lectureEnd pacific)
           (weekly lectureStart 10)
           eq_refl (conj eq_refl (or_introl eq_refl)) eq_refl eq_refl eq_refl eq_refl).
Defined.

Lemma Sub_clamped_above (t u : time.Time) :
  maxInt64 < time.instant t - time.instant u -> time.Sub t u = maxInt64.
Proof.
  intros H. unfold time.Sub. cbv zeta.
  destruct (Z.ltb_spec (time.instant t - time.instant u) minInt64);
    [unfold minInt64, maxInt64 in *; lia|].
  destruct (Z.ltb_spec maxInt64 (time.instant t - time.instant u)); [reflexivity | lia].
Qed.

(** X4: when an event has no reminder at all (no default reminder is
    configured and there is no extractor), a query with [IncludeReminders]
    measures the widening against the zero time of the empty reminder list:
    for an event that starts more than the longest [Duration] after the zero
    time, which is any date since the year 293, the recurrence search
    reaches that longest [Duration], some 292 years, past the end of the
    query, and every occurrence up to there is returned. *)
Theorem recurring_event_without_reminders_widening
    (pre : list ical.Component) (src : ical.Component) (post : list ical.Component)
    (start end_ : time.Time) (opts : EventsOpts) (dtstart dtend : time.Time)
    (rrules : rrule.RuleSet) :
  time.Location_eqb (time.zone start) (time.zone end_) = true ->
  lookedAt src opts ->
  ical.DateTimeStart src (time.zone start) = Some dtstart ->
  ical.DateTimeEnd src (time.zone start) = Some dtend ->
  ical.RecurrenceSet src (time.zone start) = Some rrules ->
  IncludeReminders opts = true ->
  DefaultReminders opts = [] ->
  ParseReminder opts = None ->
  time.instant time.zero + maxInt64 < time.instant dtstart ->
  contributes pre src post start end_ opts
    (map (fun startsAt =>
            createEvent src startsAt (time.Add startsAt (time.Sub dtend dtstart)) opts)
         (rrule.Between rrules start (time.Add end_ maxInt64) true)).
Proof.
  intros Hloc Hlooked Hstart Hend Hrec Hincl Hdef Hparse Hlate.
  pose proof (contributes_visitComponent pre src post start end_ opts Hloc) as Hc.
  rewrite (visitComponent_lookedAt src start end_ opts _ dtstart dtend Hlooked Hstart Hend)
    in Hc.
  cbv zeta in Hc. rewrite Hrec in Hc.
  unfold recurrenceEnd in Hc. rewrite Hincl in Hc.
  assert (Hnone : Reminders (createEvent src dtstart dtend opts) = []).
  { simpl. rewrite EventReminders_eq. unfold customReminders.
    now rewrite Hdef, Hparse. }
  rewrite Hnone in Hc. simpl EarliestReminder in Hc.
  rewrite (Sub_clamped_above (StartsAt (createEvent src dtstart dtend opts))
             (RemindAt Reminder_zero)) in Hc; [exact Hc|].
  change (StartsAt (createEvent src dtstart dtend opts)) with dtstart.
  change (RemindAt Reminder_zero) with time.zero. lia.
Qed.

(** The weekly lecture, asked for one day with reminders included and none
    configured: all ten occurrences come back. *)
Lemma recurring_event_without_reminders_witness :
  contributes [] (lecture "CONFIRMED" true) [] midnightNov1 (afterMidnight Day)
    (mkEventsOpts None [] ""%string true false)
    (map (fun startsAt =>
            createEvent (lecture "CONFIRMED" true) startsAt
              (time.Add startsAt
                 (time.Sub (time.mkTime lectureEnd pacific) (time.mkTime lectureStart pacific)))
              (mkEventsOpts None [] ""%string true false))
         (rrule.Between (weekly lectureStart 10) midnightNov1
            (time.Add (afterMidnight Day) maxInt64) true)).
Proof.
  refine (recurring_event_without_reminders_widening
           [] (lecture "CONFIRMED" true) [] midnightNov1 (afterMidnight Day)
           (mkEventsOpts None [] ""%string true false)
           (time.mkTime lectureStart pacific) (time.mkTime lectureEnd pacific)
           (weekly lectureStart 10)
           eq_refl (conj eq_refl (or_introl eq_refl)) eq_refl eq_refl eq_refl eq_refl
           eq_refl eq_refl _).
  vm_compute. reflexivity.
Defined.

(** ** Reminders *)

Lemma EarliestReminder_cons_min (r : Reminder) (l : list Reminder) :
  In (EarliestReminder (r :: l)) (r :: l) /\
  Forall (fun x => time.instant (RemindAt (EarliestReminder (r :: l)))
                   <= time.instant (RemindAt x))
         (r :: l).
Proof.
  unfold EarliestReminder.
  destruct (earliest_fold l r) as (Hin & Hle & Hall).
  split; [assumption|].
  constructor; assumption.
Qed.

(** X5: the times of the reminders made from a list of times are those
    times, and the times of the reminders made from durations are the start
    minus each duration, in the same order; no reminder is added or lost. *)
Theorem ReminderTimes_NewReminders (times : list time.Time) (action : ReminderAction)
    (startsAt : time.Time) (durations : list time.Duration) :
  ReminderTimes (NewReminders times action) = times /\
  ReminderTimes (NewRemindersFromDuration startsAt durations action)
    = CalculateReminderTimes startsAt durations /\
  List.length (NewRemindersFromDuration startsAt durations action) = List.length durations /\
  Forall (fun r => Action r = action) (NewRemindersFromDuration startsAt durations action).
Proof.
  assert (H : forall ts, ReminderTimes (NewReminders ts action) = ts).
  { intros ts. unfold ReminderTimes, NewReminders, mapSlice.
    rewrite map_map. simpl. apply map_id. }
  split; [apply H|]. split; [apply H|]. split.
  - rewrite NewRemindersFromDuration_map. apply length_map.
  - rewrite NewRemindersFromDuration_map. apply Forall_forall.
    intros r Hr. apply in_map_iff in Hr. destruct Hr as (d & <- & _). reflexivity.
Qed.

(** X6: when reminders come from the configured durations alone, the
    recurrence search of a query with [IncludeReminders] is widened by the
    longest of these durations. *)
Theorem recurrenceEnd_longest_default (src : ical.Component) (dtstart dtend end_ : time.Time)
    (opts : EventsOpts) :
  IncludeReminders opts = true ->
  ParseReminder opts = None ->
  DefaultReminders opts <> [] ->
  Forall (fun d => minInt64 < d <= maxInt64) (DefaultReminders opts) ->
  exists longest,
    In longest (DefaultReminders opts) /\
    Forall (fun d => d <= longest) (DefaultReminders opts) /\
    recurrenceEnd (createEvent src dtstart dtend opts) end_ opts = time.Add end_ longest.
Proof.
  intros Hincl Hparse Hne Hrange.
  unfold recurrenceEnd. rewrite Hincl.
  change (StartsAt (createEvent src dtstart dtend opts)) with dtstart.
  assert (Hrs : Reminders (createEvent src dtstart dtend opts) =
                map (fun d => mkReminder (defaultAction opts)
                                (time.Add dtstart (time.neg d)))
                    (DefaultReminders opts)).
  { simpl. rewrite EventReminders_eq. unfold customReminders.
    rewrite Hparse. now rewrite app_nil_r. }
  rewrite Hrs.
  destruct (DefaultReminders opts) as [|d ds] eqn:Hd; [congruence|].
  destruct (EarliestReminder_cons_min
              (mkReminder (defaultAction opts) (time.Add dtstart (time.neg d)))
              (map (fun d => mkReminder (defaultAction opts)
                               (time.Add dtstart (time.neg d))) ds))
    as (Hin & Hall).
  change (mkReminder (defaultAction opts) (time.Add dtstart (time.neg d))
          :: map (fun d => mkReminder (defaultAction opts)
                             (time.Add dtstart (time.neg d))) ds)
    with (map (fun d => mkReminder (defaultAction opts)
                          (time.Add dtstart (time.neg d))) (d :: ds)) in *.
  apply in_map_iff in Hin. destruct Hin as (longest & Heq & Hin).
  rewrite Forall_forall in Hrange.
  exists longest. split; [exact Hin|]. split.
  - apply Forall_forall. intros d' Hd'.
    rewrite Forall_forall in Hall.
    specialize (Hall _ (in_map _ _ _ Hd')).
    rewrite <- Heq in Hall. simpl in Hall.
    rewrite !neg_small in Hall by (apply Hrange; assumption). lia.
  - rewrite <- Heq. simpl RemindAt.
    rewrite Sub_exact.
    + simpl. rewrite neg_small by (apply Hrange; assumption).
      f_equal. lia.
    + simpl. rewrite neg_small by (apply Hrange; assumption).
      specialize (Hrange _ Hin). unfold minInt64, maxInt64 in *. lia.
Qed.

(** Reminders ten minutes before and at the start: ten minutes more. *)
Lemma recurrenceEnd_longest_default_witness :
  exists longest,
    In longest (DefaultReminders tenMinutesAndStart) /\
    Forall (fun d => d <= longest) (DefaultReminders tenMinutesAndStart) /\
    recurrenceEnd
      (createEvent (lecture "CONFIRMED" true) (time.mkTime lectureStart pacific)
         (time.mkTime lectureEnd pacific) tenMinutesAndStart)
      (afterMidnight Day) tenMinutesAndStart
    = time.Add (afterMidnight Day) longest.
Proof.
  refine (recurrenceEnd_longest_default (lecture "CONFIRMED" true)
            (time.mkTime lectureStart pacific) (time.mkTime lectureEnd pacific)
            (afterMidnight Day) tenMinutesAndStart eq_refl eq_refl _ _).
  - discriminate.
  - repeat constructor; vm_compute; (reflexivity || discriminate).
Defined.

(** ** Comparing and refreshing calendars *)

Lemma bytes_Equal_refl (a : list Byte.byte) : bytes_Equal a a = true.
Proof.
  induction a as [|x a IH]; simpl; [reflexivity|].
  rewrite IH, andb_true_r. now apply Byte.byte_dec_lb.
Qed.

Lemma bytes_Equal_eq (a b : list Byte.byte) : bytes_Equal a b = true <-> a = b.
Proof.
  split; [|intros ->; apply bytes_Equal_refl].
  revert b. induction a as [|x a IH]; intros [|y b]; simpl; try discriminate.
  - reflexivity.
  - intros H. apply andb_true_iff in H. destruct H as (Hx & Hab).
    apply Byte.byte_dec_bl in Hx. apply IH in Hab. congruence.
Qed.

Lemma bytes_Equal_sym (a b : list Byte.byte) : bytes_Equal a b = bytes_Equal b a.
Proof.
  destruct (bytes_Equal a b) eqn:Hab.
  - apply bytes_Equal_eq in Hab. subst. symmetry. apply bytes_Equal_refl.
  - destruct (bytes_Equal b a) eqn:Hba; [|reflexivity].
    apply bytes_Equal_eq in Hba. subst. now rewrite bytes_Equal_refl in Hab.
Qed.

Lemma ICSCalendar_ptr_eqb_sym (c x : option ICSCalendar) :
  ICSCalendar_ptr_eqb c x = ICSCalendar_ptr_eqb x c.
Proof.
  destruct c, x; simpl; try reflexivity. apply Nat.eqb_sym.
Qed.

(** X7: [Equals] holds of every pointer and itself, the nil pointer included
    and whether or not the calendar can be encoded; it does not depend on
    the order of its two arguments; a nil pointer equals nothing but nil;
    and two calendars at different addresses are equal exactly when both
    encode and to the same bytes. *)
Theorem Equals_properties (c x : option ICSCalendar) :
  Equals c c = true /\
  Equals c x = Equals x c /\
  (forall y, Equals None (Some y) = false /\ Equals (Some y) None = false) /\
  (forall c' x',
     ICSCalendar_addr c' <> ICSCalendar_addr x' ->
     (Equals (Some c') (Some x') = true <->
      exists bytes,
        ical.Encode (ICSCalendar_ical c') = Some bytes /\
        ical.Encode (ICSCalendar_ical x') = Some bytes)).
Proof.
  split.
  { unfold Equals. destruct c as [c'|]; simpl; [|reflexivity].
    now rewrite Nat.eqb_refl. }
  split.
  { unfold Equals. rewrite (ICSCalendar_ptr_eqb_sym c x).
    destruct (ICSCalendar_ptr_eqb x c); [reflexivity|].
    destruct c as [c'|], x as [x'|]; try reflexivity.
    destruct (ical.Encode (ICSCalendar_ical c')), (ical.Encode (ICSCalendar_ical x'));
      try reflexivity.
    apply bytes_Equal_sym. }
  split; [intros y; split; reflexivity|].
  intros c' x' Hne. unfold Equals. simpl.
  apply Nat.eqb_neq in Hne. rewrite Hne.
  destruct (ical.Encode (ICSCalendar_ical c')) as [cb|],
           (ical.Encode (ICSCalendar_ical x')) as [xb|].
  - rewrite bytes_Equal_eq. split.
    + intros ->. now exists xb.
    + intros (bytes & H1 & H2). congruence.
  - split; [discriminate | intros (bytes & _ & H); discriminate].
  - split; [discriminate | intros (bytes & H & _); discriminate].
  - split; [discriminate | intros (bytes & H & _); discriminate].
Qed.

(** X8: a refresh that publishes a document is followed, whatever other
    goroutines store after the second fetch, by a refresh that reports no
    change and leaves the snapshot alone when the document fetched the
    second time encodes to the same bytes. *)
Theorem Refresh_again_unchanged (c : OnlineICSCalendar) (status1 status2 : string)
    (new1 new2 : ICSCalendar) (bytes : list Byte.byte)
    (others : option (option ICSCalendar)) (c1 : OnlineICSCalendar) :
  ical.Encode (ICSCalendar_ical new1) = Some bytes ->
  ical.Encode (ICSCalendar_ical new2) = Some bytes ->
  Refresh c (Replied 200 status1 (Value new1)) None = ((true, None), c1) ->
  Load c1 = Some new1 /\
  Refresh c1 (Replied 200 status2 (Value new2)) others = ((false, None), c1).
Proof.
  intros H1 H2 Hfirst.
  destruct (Refresh_changed _ _ _ _ _ Hfirst) as (_ & status & new & Hresp & _ & _ & Hload).
  injection Hresp as _ <-.
  split; [exact Hload|].
  simpl. rewrite Hload, (Equals_same_bytes new1 new2 bytes H1 H2). reflexivity.
Qed.

(** Two fetches of the same bytes, parsed at two addresses. *)
Lemma Refresh_again_unchanged_witness :
  Refresh (Store (NewOnlineICSCalendar "https://example.org/calendar.ics")
             (Some (encodedDocument 1 [Byte.x42])))
    (Replied 200 "200 OK" (Value (encodedDocument 2 [Byte.x42]))) None
  = ((false, None),
     Store (NewOnlineICSCalendar "https://example.org/calendar.ics")
       (Some (encodedDocument 1 [Byte.x42]))).
Proof.
  exact (proj2 (Refresh_again_unchanged
                  (NewOnlineICSCalendar "https://example.org/calendar.ics")
                  "200 OK" "200 OK" (encodedDocument 1 [Byte.x42])
                  (encodedDocument 2 [Byte.x42]) [Byte.x42] None
                  (Store (NewOnlineICSCalendar "https://example.org/calendar.ics")
                     (Some (encodedDocument 1 [Byte.x42])))
                  eq_refl eq_refl eq_refl)).
Defined.

(** X9: a document that cannot be encoded is never taken for unchanged: when
    the fetched document, or the published one, fails to encode, a refresh
    that no other goroutine interferes with publishes the fetched document
    and reports a change, even if the two documents are the same. *)
Theorem Refresh_unencodable_reports_change (c : OnlineICSCalendar) (status : string)
    (old new : ICSCalendar) :
  Load c = Some old ->
  ICSCalendar_addr old <> ICSCalendar_addr new ->
  ical.Encode (ICSCalendar_ical old) = None \/ ical.Encode (ICSCalendar_ical new) = None ->
  Refresh c (Replied 200 status (Value new)) None = ((true, None), Store c (Some new)).
Proof.
  intros Hload Hne Henc. simpl. rewrite Hload.
  assert (Heq : Equals (Some old) (Some new) = false).
  { unfold Equals. simpl. apply Nat.eqb_neq in Hne. rewrite Hne.
    destruct Henc as [-> | ->]; [reflexivity|].
    destruct (ical.Encode (ICSCalendar_ical old)); reflexivity. }
  rewrite Heq. unfold CompareAndSwap. rewrite Hload. simpl.
  now rewrite Nat.eqb_refl.
Qed.

(** The same components fetched again, from a calendar that does not encode. *)
Lemma Refresh_unencodable_witness :
  Refresh (Store (NewOnlineICSCalendar "https://example.org/calendar.ics")
             (Some (NewICS 1 (ical.mkCalendar [lecture "CONFIRMED" false] None))))
    (Replied 200 "200 OK"
       (Value (NewICS 2 (ical.mkCalendar [lecture "CONFIRMED" false] None)))) None
  = ((true, None),
     Store (Store (NewOnlineICSCalendar "https://example.org/calendar.ics")
              (Some (NewICS 1 (ical.mkCalendar [lecture "CONFIRMED" false] None))))
       (Some (NewICS 2 (ical.mkCalendar [lecture "CONFIRMED" false] None)))).
Proof.
  refine (Refresh_unencodable_reports_change
            (Store (NewOnlineICSCalendar "https://example.org/calendar.ics")
               (Some (NewICS 1 (ical.mkCalendar [lecture "CONFIRMED" false] None))))
            "200 OK" (NewICS 1 (ical.mkCalendar [lecture "CONFIRMED" false] None))
            (NewICS 2 (ical.mkCalendar [lecture "CONFIRMED" false] None))
            eq_refl _ (or_introl eq_refl)).
  discriminate.
Defined.

(** X10: a refresh that loses the race reports no change and does not touch
    what the winner published: when another goroutine has stored a pointer
    other than the one this call loaded, the compare-and-swap fails, the
    call returns [false] without an error, and the snapshot is the other
    goroutine's. *)
Theorem Refresh_lost_race_keeps_winner (c : OnlineICSCalendar) (status : string)
    (new : ICSCalendar) (winner : option ICSCalendar) :
  ICSCalendar_ptr_eqb winner (Load c) = false ->
  fst (Refresh c (Replied 200 status (Value new)) (Some winner)) = (false, None) /\
  (Equals (Load c) (Some new) = false ->
   Refresh c (Replied 200 status (Value new)) (Some winner) = ((false, None), Store c winner)).
Proof.
  intros Hne.
  assert (Hcas : CompareAndSwap (Store c winner) (Load c) (Some new)
                 = (false, Store c winner)).
  { unfold CompareAndSwap. change (Load (Store c winner)) with winner.
    now rewrite Hne. }
  unfold Refresh. change (negb (200 =? 200)) with false. cbv iota.
  destruct (Equals (Load c) (Some new)); [split; [reflexivity | discriminate]|].
  rewrite Hcas. split; [reflexivity | intros _; reflexivity].
Qed.

(** Two first refreshes: the other one has published by the time of the swap. *)
Lemma Refresh_lost_race_witness :
  Refresh (NewOnlineICSCalendar "https://example.org/calendar.ics")
    (Replied 200 "200 OK" (Value (encodedDocument 2 [Byte.x42])))
    (Some (Some (encodedDocument 1 [Byte.x42])))
  = ((false, None),
     Store (NewOnlineICSCalendar "https://example.org/calendar.ics")
       (Some (encodedDocument 1 [Byte.x42]))).
Proof.
  exact (proj2 (Refresh_lost_race_keeps_winner
                  (NewOnlineICSCalendar "https://example.org/calendar.ics") "200 OK"
                  (encodedDocument 2 [Byte.x42]) (Some (encodedDocument 1 [Byte.x42]))
                  eq_refl) eq_refl).
Defined.

(** X11: an online calendar that has published nothing answers every query
    with no event, also a query whose bounds are in two locations; after a
    refresh that reports a change it answers as the fetched calendar does;
    and after a refresh that returns an error it answers as before. *)
Theorem OnlineICSCalendar_queries_follow_snapshot (c : OnlineICSCalendar) (resp : Response)
    (others : option (option ICSCalendar)) :
  (Load c = None ->
   forall start end_ opts, OnlineICSCalendar_EventsBetween c start end_ opts = Ok []) /\
  (forall err c',
     Refresh c resp others = ((true, err), c') ->
     exists status new,
       resp = Replied 200 status (Value new) /\
       forall start end_ opts,
         OnlineICSCalendar_EventsBetween c' start end_ opts
         = ICSCalendar_EventsBetween new start end_ opts) /\
  (forall changed err c',
     Refresh c resp others = ((changed, Some err), c') ->
     changed = false /\
     forall start end_ opts,
       OnlineICSCalendar_EventsBetween c' start end_ opts
       = OnlineICSCalendar_EventsBetween c start end_ opts).
Proof.
  split.
  { intros Hload start end_ opts. unfold OnlineICSCalendar_EventsBetween.
    now rewrite Hload. }
  split.
  { intros err c' H.
    destruct (Refresh_changed _ _ _ _ _ H) as (_ & status & new & Hresp & _ & _ & Hload).
    exists status, new. split; [exact Hresp|].
    intros start end_ opts. unfold OnlineICSCalendar_EventsBetween. now rewrite Hload. }
  intros changed err c' H.
  assert (Hc : changed = false /\ c' = c).
  { destruct resp as [e|e|code status parsed]; simpl in H.
    - injection H as <- _ <-. split; reflexivity.
    - injection H as <- _ <-. split; reflexivity.
    - destruct (negb (code =? 200)).
      + injection H as <- _ <-. split; reflexivity.
      + destruct parsed as [new|e].
        * destruct (Equals (Load c) (Some new)); [discriminate|].
          destruct (CompareAndSwap _ (Load c) (Some new)) as [swapped c1].
          destruct swapped; discriminate.
        * injection H as <- _ <-. split; reflexivity. }
  destruct Hc as (-> & ->). split; reflexivity.
Qed.

(** ** The tracked calendars *)

Lemma RemoveCalendar_In (st : NotifierState) (cal c : Calendar) :
  In c (Calendars (RemoveCalendar st cal)) <->
  In c (Calendars st) /\ Calendar_ptr c <> Calendar_ptr cal.
Proof.
  unfold RemoveCalendar. simpl. rewrite filter_In, negb_true_iff, Nat.eqb_neq. tauto.
Qed.

Lemma filter_keeps_identities_apart (keep : Calendar -> bool) (cals : list Calendar) :
  NoDup (map Calendar_ptr cals) -> NoDup (map Calendar_ptr (filter keep cals)).
Proof.
  intros Hnd. induction cals as [|cal cals IH]; simpl; [constructor|].
  simpl in Hnd. apply NoDup_cons_iff in Hnd. destruct Hnd as (Hfresh & Hnd).
  destruct (keep cal); simpl; [|now apply IH].
  apply NoDup_cons_iff. split; [|now apply IH].
  intros Hin. apply Hfresh.
  apply in_map_iff in Hin. destruct Hin as (other & Hptr & Hin).
  apply filter_In in Hin. apply in_map_iff. exists other. tauto.
Qed.

(** X12: the tracked calendars behave as a set keyed by the calendar's
    identity.  After [AddCalendar] the calendar is tracked, once, and the
    others are as before; after [RemoveCalendar] it is not tracked and the
    others are as before; adding a calendar twice is adding it once, and
    removing after adding is removing; no operation makes two entries of
    one identity. *)
Theorem tracked_calendars_form_a_set (st : NotifierState) (cal : Calendar) :
  (forall c, In c (Calendars (AddCalendar st cal)) <->
             c = cal \/ (In c (Calendars st) /\ Calendar_ptr c <> Calendar_ptr cal)) /\
  (forall c, In c (Calendars (RemoveCalendar st cal)) <->
             In c (Calendars st) /\ Calendar_ptr c <> Calendar_ptr cal) /\
  AddCalendar (AddCalendar st cal) cal = AddCalendar st cal /\
  RemoveCalendar (AddCalendar st cal) cal = RemoveCalendar st cal /\
  (NoDup (map Calendar_ptr (Calendars st)) ->
   NoDup (map Calendar_ptr (Calendars (AddCalendar st cal))) /\
   NoDup (map Calendar_ptr (Calendars (RemoveCalendar st cal)))).
Proof.
  assert (Hrem : RemoveCalendar (AddCalendar st cal) cal = RemoveCalendar st cal).
  { unfold AddCalendar, RemoveCalendar. simpl. f_equal.
    rewrite filter_app. simpl. rewrite Nat.eqb_refl. simpl. rewrite app_nil_r.
    induction (Calendars st) as [|a l IH]; simpl; [reflexivity|].
    destruct (negb (Nat.eqb (Calendar_ptr a) (Calendar_ptr cal))) eqn:Ha; simpl.
    - rewrite Ha. now rewrite IH.
    - exact IH. }
  split.
  { intros c. unfold AddCalendar. cbn [Calendars].
    rewrite in_app_iff, RemoveCalendar_In. simpl. intuition. }
  split; [intros c; apply RemoveCalendar_In|].
  split.
  { unfold AddCalendar at 1. now rewrite Hrem. }
  split; [exact Hrem|].
  intros Hnd. split.
  - unfold AddCalendar. cbn [Calendars]. rewrite map_app. simpl.
    apply NoDup_app_remove_l with (l := []). simpl.
    apply Permutation_NoDup with (l := Calendar_ptr cal ::
      map Calendar_ptr (Calendars (RemoveCalendar st cal))).
    + apply Permutation_cons_append.
    + constructor.
      * intros Hin. apply in_map_iff in Hin. destruct Hin as (x & Hx & Hin).
        apply RemoveCalendar_In in Hin. tauto.
      * unfold RemoveCalendar. simpl. now apply filter_keeps_identities_apart.
  - unfold RemoveCalendar. simpl. now apply filter_keeps_identities_apart.
Qed.

(** ** Signalling the loop *)


(** ** Events that notify *)

Lemma Subseq_refl {A : Type} (l : list A) : Subseq l l.
Proof. induction l; constructor; assumption. Qed.

Lemma Subseq_app_l {A : Type} (l1 l l2 : list A) : Subseq l l2 -> Subseq l (l1 ++ l2).
Proof. intros H. induction l1; simpl; [assumption | now constructor]. Qed.

Lemma Subseq_In {A : Type} (l l' : list A) : Subseq l l' -> forall x, In x l -> In x l'.
Proof.
  intros H. induction H; intros y Hy; simpl in *; [assumption | right; auto |].
  destruct Hy as [-> | Hy]; [now left | right; auto].
Qed.

Lemma Subseq_sorted {A : Type} (R : A -> A -> Prop) (l l' : list A) :
  Subseq l l' -> StronglySorted R l' -> StronglySorted R l.
Proof.
  intros H. induction H as [|x l l' H IH|x l l' H IH]; intros Hs.
  - constructor.
  - apply IH. now apply StronglySorted_inv in Hs.
  - apply StronglySorted_inv in Hs. destruct Hs as (Hs & Hall).
    constructor; [now apply IH|].
    rewrite Forall_forall in *. intros y Hy. apply Hall.
    now apply (Subseq_In l l').
Qed.





Lemma rangeCalendars_panic (n : Notifier) (start end_ : time.Time)
    (before : list Calendar) (cal : Calendar) (after : list Calendar) (msg : string) :
  (forall c, In c before ->
     exists evs, EventsBetween c start end_ (NotifierOpts_EventsOpts (opts n)) = Ok evs) ->
  EventsBetween cal start end_ (NotifierOpts_EventsOpts (opts n)) = Panic msg ->
  forall notifyingEvents,
    rangeCalendars n (before ++ cal :: after) start end_ notifyingEvents = Panic msg.
Proof.
  intros Hok Hpanic. induction before as [|c before IH]; intros acc; simpl.
  - now rewrite Hpanic.
  - destruct (Hok c (or_introl eq_refl)) as (evs & ->).
    apply IH. intros c' Hc'. apply Hok. now right.
Qed.

(** X15: a calendar whose query panics takes the refresh down with it: when
    the calendars ranged over before it answer and it panics, the
    notifications are not computed, the calendars after it are not asked,
    and the loop of the notifier ends in that panic, on a day tick as on an
    update. *)
Theorem calendar_panic_ends_the_loop (n : Notifier) (now : time.Time) (s : loopState)
    (before : list Calendar) (cal : Calendar) (after : list Calendar) (msg : string) :
  let location := Notifier_Location n in
  let from := dayStart (time.In now location) in
  let to := time.Add from Day in
  (forall c, In c before ->
     exists evs, EventsBetween c from to (NotifierOpts_EventsOpts (opts n)) = Ok evs) ->
  EventsBetween cal from to (NotifierOpts_EventsOpts (opts n)) = Panic msg ->
  notifications n (before ++ cal :: after) from to = Panic msg /\
  loopStep n s (dayTick now (before ++ cal :: after)) = Panicked n msg /\
  loopStep n s (updateReceived now (before ++ cal :: after))
    = Panicked (mkNotifier (opts n) (done n) false (state n)) msg.
Proof.
  intros location from to Hok Hpanic.
  assert (Hn : forall n', opts n' = opts n ->
                 notifications n' (before ++ cal :: after) from to = Panic msg).
  { intros n' Hopts. unfold notifications, notifyingEvents.
    rewrite (rangeCalendars_panic n' from to before cal after msg); [reflexivity| |].
    - rewrite Hopts. exact Hok.
    - rewrite Hopts. exact Hpanic. }
  split; [now apply Hn|].
  split.
  - simpl. unfold refreshNotifications. cbv zeta.
    fold location. fold from. fold to. now rewrite Hn.
  - simpl. unfold refreshNotifications. cbv zeta.
    change (Notifier_Location (mkNotifier (opts n) (done n) false (state n)))
      with location.
    fold from. fold to. now rewrite Hn.
Qed.

(** The lecture's calendar answers, the broken one panics. *)
Lemma calendar_panic_witness :
  loopStep lectureNotifier emptyLoop
    (dayTick (afterMidnight (3 * time.Hour)) ([lectureCalendar] ++ brokenCalendar :: []))
  = Panicked lectureNotifier "calendar failed".
Proof.
  refine (proj1 (proj2 (calendar_panic_ends_the_loop lectureNotifier
            (afterMidnight (3 * time.Hour)) emptyLoop [lectureCalendar] brokenCalendar []
            "calendar failed"
            (fun c Hin =>
               match Hin with
               | or_introl Heq =>
                   eq_ind lectureCalendar
                     (fun c => exists evs,
                        EventsBetween c
                          (dayStart (time.In (afterMidnight (3 * time.Hour))
                                       (Notifier_Location lectureNotifier)))
                          (time.Add
                             (dayStart (time.In (afterMidnight (3 * time.Hour))
                                          (Notifier_Location lectureNotifier))) Day)
                          (NotifierOpts_EventsOpts (opts lectureNotifier)) = Ok evs)
                     (ex_intro _ [lectureEvent] eq_refl) c Heq
               | or_intror Hf => match Hf with end
               end)
            eq_refl))).
Defined.

(** ** The loop of the notifier *)

Lemma StronglySorted_app_r {A : Type} (R : A -> A -> Prop) (l1 l2 : list A) :
  StronglySorted R (l1 ++ l2) -> StronglySorted R l2.
Proof.
  induction l1 as [|a l1 IH]; simpl; intros H; [assumption|].
  apply IH. now apply StronglySorted_inv in H.
Qed.

Lemma purge_suffix (n : Notifier) (now : time.Time) (l : list Notification) :
  exists dropped, l = dropped ++ purge n now l.
Proof.
  destruct (purge_spec n now l) as (dropped & H & _). now exists dropped.
Qed.

Lemma queueNext_sortedQueue (n : Notifier) (now : time.Time) (s : loopState) :
  sortedQueue s -> sortedQueue (queueNext n now s).
Proof.
  unfold sortedQueue. rewrite queueNext_queue.
  destruct (purge_suffix n now (queue s)) as (dropped & H).
  intros Hs. rewrite H in Hs. now apply StronglySorted_app_r in Hs.
Qed.

Lemma queueNext_armedForHead (n : Notifier) (now : time.Time) (s : loopState) :
  armedForHead (queueNext n now s).
Proof.
  unfold armedForHead, queueNext. cbv zeta.
  destruct (purge n now (queue s)) as [|head rest]; simpl.
  - destruct (notificationTimer s); exact I.
  - now exists now.
Qed.

Lemma notifications_sorted (n : Notifier) (order : list Calendar) (start end_ : time.Time)
    (ns : list Notification) :
  notifications n order start end_ = Ok ns ->
  StronglySorted (fun a b => CompareTime (RemindedAt a) (RemindedAt b) <= 0) ns.
Proof.
  unfold notifications.
  destruct (notifyingEvents n order start end_) as [evs|]; [|discriminate].
  intros H. injection H as <-.
  apply StronglySorted_impl
    with (R := fun x y => time.UnixNano (RemindedAt x) <= time.UnixNano (RemindedAt y)).
  - intros x y. apply CompareTime_nonpos.
  - apply SortFunc_sorted. intros x y. unfold CompareTime. apply Compare_neg.
Qed.

Lemma refreshNotifications_invariant (n : Notifier) (order : list Calendar) (now : time.Time)
    (s s' : loopState) :
  refreshNotifications n order now s = Ok s' ->
  sortedQueue s' /\ armedForHead s' /\ sent s' = sent s.
Proof.
  unfold refreshNotifications. cbv zeta.
  destruct (notifications n order (dayStart now) (time.Add (dayStart now) Day))
    as [ns|] eqn:Hns; [|discriminate].
  intros H. injection H as <-.
  split; [|split].
  - apply queueNext_sortedQueue. unfold sortedQueue. simpl.
    now apply notifications_sorted in Hns.
  - apply queueNext_armedForHead.
  - now rewrite queueNext_sent.
Qed.

Lemma loopStep_invariant (n : Notifier) (s : loopState) (ev : loopEvent) (s' : loopState) :
  sortedQueue s -> armedForHead s ->
  lastState (loopStep n s ev) = Some s' ->
  sortedQueue s' /\ armedForHead s'.
Proof.
  intros Hs Ha. destruct ev as [|now order|now order|now accepted]; simpl.
  - intros H. injection H as <-. split; assumption.
  - destruct (refreshNotifications n order _ s) as [s1|] eqn:Hr; simpl; [|discriminate].
    intros H. injection H as <-.
    apply refreshNotifications_invariant in Hr. tauto.
  - destruct (refreshNotifications _ order _ s) as [s1|] eqn:Hr; simpl; [|discriminate].
    intros H. injection H as <-.
    apply refreshNotifications_invariant in Hr. tauto.
  - destruct (queue s) as [|head rest] eqn:Hq; simpl; [discriminate|].
    destruct accepted; simpl; intros H; injection H as <-.
    + split; [|apply queueNext_armedForHead].
      apply queueNext_sortedQueue. unfold sortedQueue in *. simpl.
      rewrite Hq in Hs. now apply StronglySorted_inv in Hs.
    + split; assumption.
Qed.

Lemma loop_invariant (n : Notifier) (trace : list loopEvent) :
  forall n s s',
    sortedQueue s -> armedForHead s ->
    lastState (loop n s trace) = Some s' ->
    sortedQueue s' /\ armedForHead s'.
Proof.
  induction trace as [|ev trace IH]; intros n0 s s' Hs Ha; simpl.
  - intros H. injection H as <-. split; assumption.
  - pose proof (loopStep_invariant n0 s ev) as Hstep.
    destruct (loopStep n0 s ev) as [n1 s1|n1 s1|n1 msg]; simpl in *.
    + destruct (Hstep s1 Hs Ha eq_refl) as (Hs1 & Ha1).
      now apply IH.
    + intros H. injection H as <-. now apply Hstep.
    + discriminate.
Qed.

(** X16: throughout a run of [Notify] the queue is in ascending order of the
    times the notifications are due, and the timer is armed only while the
    queue has a head, for the time of that head; so a timer that was armed
    never fires on an empty queue, and the panic for that case is not met. *)
Theorem Notify_keeps_queue_sorted_and_armed (n : Notifier) (trace : list loopEvent) :
  (forall s, lastState (Notify n trace) = Some s -> sortedQueue s /\ armedForHead s) /\
  (forall s d now accepted,
     armedForHead s -> notificationTimer s = time.Armed d ->
     exists s', lastState (loopStep n s (timerFired now accepted)) = Some s').
Proof.
  split.
  - intros s. unfold Notify, Notify_enter.
    destruct (done n); [discriminate|].
    assert (Hinit : sortedQueue emptyLoop /\ armedForHead emptyLoop).
    { split; [constructor | exact I]. }
    destruct Hinit as (Hs0 & Ha0).
    pose proof (loop_invariant n trace n emptyLoop) as Hloop.
    unfold emptyLoop in *.
    destruct (loop n (mkLoopState [] time.NoTimer []) trace) as [n1 s1|n1 s1|n1 msg];
      simpl in *.
    + intros H. injection H as <-. now apply Hloop.
    + destruct (Notify_leave n1); simpl; [|discriminate].
      intros H. injection H as <-. now apply Hloop.
    + destruct (Notify_leave n1); discriminate.
  - intros s d now accepted Ha Ht. unfold armedForHead in Ha. rewrite Ht in Ha.
    simpl. destruct (queue s) as [|head rest]; [contradiction|].
    destruct accepted; eexists; reflexivity.
Qed.

Lemma loopStep_sent (n : Notifier) (s : loopState) (ev : loopEvent) (s' : loopState) :
  lastState (loopStep n s ev) = Some s' ->
  exists delivered, sent s' = sent s ++ delivered.
Proof.
  destruct ev as [|now order|now order|now accepted]; simpl.
  - intros H. injection H as <-. exists []. now rewrite app_nil_r.
  - destruct (refreshNotifications n order _ s) as [s1|] eqn:Hr; simpl; [|discriminate].
    intros H. injection H as <-. apply refreshNotifications_invariant in Hr.
    exists []. rewrite app_nil_r. tauto.
  - destruct (refreshNotifications _ order _ s) as [s1|] eqn:Hr; simpl; [|discriminate].
    intros H. injection H as <-. apply refreshNotifications_invariant in Hr.
    exists []. rewrite app_nil_r. tauto.
  - destruct (queue s) as [|head rest]; simpl; [discriminate|].
    destruct accepted; simpl; intros H; injection H as <-.
    + exists [head]. now rewrite queueNext_sent.
    + exists []. now rewrite app_nil_r.
Qed.

Lemma loop_sent (trace : list loopEvent) :
  forall n s s',
    lastState (loop n s trace) = Some s' ->
    exists delivered, sent s' = sent s ++ delivered.
Proof.
  induction trace as [|ev trace IH]; intros n s s'; simpl.
  - intros H. injection H as <-. exists []. now rewrite app_nil_r.
  - pose proof (loopStep_sent n s ev) as Hstep.
    destruct (loopStep n s ev) as [n1 s1|n1 s1|n1 msg]; simpl in *.
    + intros H. destruct (Hstep s1 eq_refl) as (d1 & H1).
      destruct (IH n1 s1 s' H) as (d2 & H2).
      exists (d1 ++ d2). rewrite H2, H1. now rewrite app_assoc.
    + intros H. injection H as <-. now apply Hstep.
    + discriminate.
Qed.

Lemma loop_deliveries (trace : list loopEvent) :
  Forall isTimerFired trace ->
  forall n s s',
    lastState (loop n s trace) = Some s' ->
    exists delivered,
      sent s' = sent s ++ delivered /\ Subseq (delivered ++ queue s') (queue s).
Proof.
  induction trace as [|ev trace IH]; intros Htrace n s s'; simpl.
  - intros H. injection H as <-. exists []. rewrite app_nil_r.
    split; [reflexivity | apply Subseq_refl].
  - inversion Htrace as [|? ? Hev Hrest]; subst.
    destruct ev as [|now order|now order|now accepted]; try contradiction.
    simpl. destruct (queue s) as [|head rest] eqn:Hq; simpl; [discriminate|].
    destruct accepted; simpl.
    + intros H. destruct (IH Hrest _ _ _ H) as (delivered & Hsent & Hsub).
      rewrite queueNext_sent in Hsent. cbn [sent] in Hsent.
      rewrite queueNext_queue in Hsub. cbn [queue] in Hsub.
      exists (head :: delivered). split.
      * rewrite Hsent, <- app_assoc. reflexivity.
      * simpl. apply Subseq_take.
        destruct (purge_suffix n (time.In now (Notifier_Location n)) rest)
          as (dropped & Hd).
        apply (Subseq_app_l dropped) in Hsub. rewrite <- Hd in Hsub. exact Hsub.
    + intros H. injection H as <-. exists []. rewrite app_nil_r.
      split; [reflexivity|]. rewrite Hq. apply Subseq_refl.
Qed.

(** X17: what the loop has sent is never taken back; and between two
    refreshes, while only the timer fires, the notifications sent followed
    by those still queued are notifications of the queue in the order of
    the queue, so each queued notification is sent at most once, none is
    sent that was not queued, and on a sorted queue they are sent in
    ascending order of the time they are due. *)
Theorem deliveries_in_queue_order (n : Notifier) (s : loopState) (trace : list loopEvent) :
  (forall s',
     lastState (loop n s trace) = Some s' ->
     exists delivered, sent s' = sent s ++ delivered) /\
  (Forall isTimerFired trace ->
   forall s',
     lastState (loop n s trace) = Some s' ->
     exists delivered,
       sent s' = sent s ++ delivered /\
       Subseq (delivered ++ queue s') (queue s) /\
       (sortedQueue s ->
        StronglySorted (fun a b => CompareTime (RemindedAt a) (RemindedAt b) <= 0)
          (delivered ++ queue s'))).
Proof.
  split; [intros s'; apply loop_sent|].
  intros Htrace s' H.
  destruct (loop_deliveries trace Htrace n s s' H) as (delivered & Hsent & Hsub).
  exists delivered. split; [exact Hsent|]. split; [exact Hsub|].
  intros Hs. now apply (Subseq_sorted _ _ _ Hsub).
Qed.

(** A queue of one notification, the timer fires once. *)
Lemma deliveries_in_queue_order_witness :
  exists delivered,
    sent (queueNext (NewNotifier pacific deliverPast)
            (time.In (afterMidnight (17 * time.Hour)) pacific)
            (mkLoopState [] time.NoTimer [tenMinutesBefore]))
    = delivered /\
    Subseq (delivered ++
            queue (queueNext (NewNotifier pacific deliverPast)
                     (time.In (afterMidnight (17 * time.Hour)) pacific)
                     (mkLoopState [] time.NoTimer [tenMinutesBefore])))
      [tenMinutesBefore].
Proof.
  destruct (proj2 (deliveries_in_queue_order (NewNotifier pacific deliverPast)
              (mkLoopState [tenMinutesBefore] time.NoTimer [])
              [timerFired (afterMidnight (17 * time.Hour)) true])
            (Forall_cons (timerFired (afterMidnight (17 * time.Hour)) true) I
               (Forall_nil _))
            _ eq_refl)
    as (delivered & Hsent & Hsub & _).
  exists delivered. split; assumption.
Defined.

(** ** The start of the day *)

Lemma midnight_fixed_zone (t : time.Time) :
  time.loc_tx (time.zone t) = [] ->
  time.midnight t =
  time.mkTime
    (((time.instant t / 1000000000 + time.loc_zone0 (time.zone t)) / 86400 * 86400
      - time.loc_zone0 (time.zone t)) * 1000000000)
    (time.zone t).
Proof.
  intros Htx. unfold time.midnight, time.lookup. rewrite Htx. simpl.
  destruct (Z.eqb_spec (time.loc_zone0 (time.zone t)) 0) as [-> | Hne].
  - f_equal. lia.
  - destruct (_ || _); reflexivity.
Qed.

(** X18: in a zone with one fixed offset, [dayStart] returns a time of the
    same zone that is midnight on the clock of that zone, at or before the
    given time and less than a day before it; the start of the day of a
    start of the day is that start of the day. *)
Theorem dayStart_fixed_zone (t : time.Time) :
  time.loc_tx (time.zone t) = [] ->
  time.zone (dayStart t) = time.zone t /\
  time.instant (dayStart t) <= time.instant t < time.instant (dayStart t) + Day /\
  (time.instant (dayStart t) + time.loc_zone0 (time.zone t) * time.Second) mod Day = 0 /\
  dayStart (dayStart t) = dayStart t.
Proof.
  intros Htx. unfold dayStart.
  rewrite (midnight_fixed_zone t Htx).
  set (off := time.loc_zone0 (time.zone t)).
  set (sec := time.instant t / 1000000000).
  set (q := (sec + off) / 86400).
  change Day with 86400000000000. change time.Second with 1000000000.
  pose proof (Z.div_mod (time.instant t) 1000000000 ltac:(lia)) as Hs.
  pose proof (Z.mod_pos_bound (time.instant t) 1000000000 ltac:(lia)) as Hsb.
  pose proof (Z.div_mod (sec + off) 86400 ltac:(lia)) as Hq.
  pose proof (Z.mod_pos_bound (sec + off) 86400 ltac:(lia)) as Hqb.
  fold sec in Hs. fold q in Hq.
  split; [reflexivity|]. split; [simpl; lia|]. split.
  - simpl. replace ((q * 86400 - off) * 1000000000 + off * 1000000000)
      with (q * 86400000000000) by lia.
    apply Z.mod_mul. lia.
  - rewrite midnight_fixed_zone by exact Htx. simpl. fold off.
    rewrite Z.div_mul by lia.
    replace (q * 86400 - off + off) with (q * 86400) by lia.
    rewrite Z.div_mul by lia. reflexivity.
Qed.

(** Three in the morning of November 1 in the zone of the lecture. *)
Lemma dayStart_fixed_zone_witness :
  dayStart (dayStart (afterMidnight (3 * time.Hour))) = dayStart (afterMidnight (3 * time.Hour)).
Proof.
  exact (proj2 (proj2 (proj2 (dayStart_fixed_zone (afterMidnight (3 * time.Hour)) eq_refl)))).
Defined.

(** ** Durations in words *)

Lemma lessThanHalf_small (x y : Z) :
  0 <= x <= maxInt64 -> 0 <= y <= maxInt64 -> lessThanHalf x y = (2 * x <? y).
Proof.
  unfold lessThanHalf, maxInt64.
  change (2 ^ 63) with 9223372036854775808.
  change (2 ^ 64) with 18446744073709551616.
  intros Hx Hy. rewrite !Z.mod_small by lia. reflexivity.
Qed.

Lemma Round_upto_minute (d : time.Duration) :
  d < 90 * time.Second -> Duration_Round d time.Minute <= time.Minute.
Proof.
  change (90 * time.Second) with 90000000000. change time.Minute with 60000000000.
  intros Hd. unfold Duration_Round.
  change (60000000000 <=? 0) with false. cbv iota zeta.
  destruct (Z.ltb_spec d 0) as [Hneg | Hpos].
  - assert (Hr : 0 <= - Z.rem d 60000000000 <= - d).
    { replace d with (- (- d)) at 1 2 by lia.
      rewrite Z.rem_opp_l', Z.opp_involutive.
      rewrite Z.rem_mod_nonneg by lia.
      pose proof (Z.mod_pos_bound (- d) 60000000000 ltac:(lia)).
      pose proof (Z.mod_le (- d) 60000000000 ltac:(lia) ltac:(lia)). lia. }
    destruct (lessThanHalf _ _); [lia|].
    match goal with
    | |- context [?a <? d] => destruct (Z.ltb_spec a d); [lia | unfold minInt64; lia]
    end.
  - rewrite Z.rem_mod_nonneg by lia.
    pose proof (Z.div_mod d 60000000000 ltac:(lia)) as Hdm.
    pose proof (Z.mod_pos_bound d 60000000000 ltac:(lia)) as Hb.
    assert (Hq : 0 <= d / 60000000000) by (apply Z.div_pos; lia).
    rewrite lessThanHalf_small by (unfold maxInt64; lia).
    destruct (Z.ltb_spec (2 * (d mod 60000000000)) 60000000000) as [Hlt | Hge].
    + lia.
    + assert (Hzero : d / 60000000000 = 0) by lia.
      replace (d + 60000000000 - d mod 60000000000) with 60000000000 by lia.
      rewrite wrap64_small by (unfold minInt64, maxInt64; lia).
      destruct (Z.ltb_spec d 60000000000); [lia | unfold maxInt64; lia].
Qed.

Lemma humanDuration_upto_minute (d : time.Duration) :
  Duration_Round d time.Minute <= time.Minute -> humanDuration d = ""%string.
Proof.
  intros H. unfold humanDuration. cbv zeta.
  set (rounded := Duration_Round d time.Minute) in *.
  assert (Hh : (time.Hour <? rounded) = false).
  { apply Z.ltb_ge. change time.Minute with 60000000000 in H.
    change time.Hour with 3600000000000. lia. }
  assert (Hm : (time.Minute <? rounded) = false).
  { now apply Z.ltb_ge. }
  rewrite Hh, Hm. reflexivity.
Qed.

(** X19: [humanDuration] is empty for every duration below a minute and a
    half, the negative ones among them.  The embed of a notification asks it
    for the start of the event minus its end, so for an event that does not
    end before it starts the Duration field of the embed is empty. *)
Theorem humanDuration_empty_for_short_and_negative (d : time.Duration)
    (notification : Notification) :
  (d < 90 * time.Second -> humanDuration d = ""%string) /\
  (time.instant (StartsAt (Notification_Event notification))
   <= time.instant (EndsAt (Notification_Event notification)) ->
   In (mkEmbedField "Duration" "" true) (embedFields notification) /\
   forall field,
     In field (embedFields notification) ->
     EmbedField_Name field = "Duration"%string -> EmbedField_Value field = ""%string).
Proof.
  split.
  { intros Hd. now apply humanDuration_upto_minute, Round_upto_minute. }
  intros Hend.
  assert (Hh : humanDuration
                 (time.Sub (StartsAt (Notification_Event notification))
                    (EndsAt (Notification_Event notification))) = ""%string).
  { apply humanDuration_upto_minute, Round_upto_minute.
    pose proof (Sub_bounds (StartsAt (Notification_Event notification))
                  (EndsAt (Notification_Event notification))) as Hb.
    assert (Hle : time.Sub (StartsAt (Notification_Event notification))
                    (EndsAt (Notification_Event notification)) <= 0).
    { unfold time.Sub. cbv zeta.
      destruct (Z.ltb_spec
                  (time.instant (StartsAt (Notification_Event notification))
                   - time.instant (EndsAt (Notification_Event notification))) minInt64);
        [unfold minInt64; lia|].
      destruct (Z.ltb_spec maxInt64
                  (time.instant (StartsAt (Notification_Event notification))
                   - time.instant (EndsAt (Notification_Event notification))));
        [unfold maxInt64 in *; lia | lia]. }
    change (90 * time.Second) with 90000000000. lia. }
  unfold embedFields. cbv zeta. rewrite Hh.
  destruct (negb (String.eqb (Location (Notification_Event notification)) "")); simpl.
  - split; [right; left; reflexivity|].
    intros field [<- | [<- | [<- | []]]]; simpl; intros H; try reflexivity; discriminate.
  - split; [right; left; reflexivity|].
    intros field [<- | [<- | []]]; simpl; intros H; try reflexivity; discriminate.
Qed.

(** The lecture of fifty minutes: no duration in its embed. *)
Lemma humanDuration_empty_witness :
  In (mkEmbedField "Duration" "" true) (embedFields tenMinutesBefore).
Proof.
  refine (proj1 (proj2 (humanDuration_empty_for_short_and_negative 0 tenMinutesBefore) _)).
  vm_compute. discriminate.
Defined.

Lemma append_assoc (a b c : string) : ((a ++ b) ++ c = a ++ (b ++ c))%string.
Proof. induction a as [|x a IH]; simpl; [reflexivity | now rewrite IH]. Qed.

Lemma append_nonempty (a b : string) : b <> ""%string -> (a ++ b)%string <> ""%string.
Proof. destruct a; simpl; [trivial | discriminate]. Qed.

Lemma formatInt_head (z : Z) :
  exists c rest, formatInt z = String c rest /\ isSpace c = false.
Proof.
  unfold formatInt. destruct (Z.to_int z) as [u | u]; simpl.
  - destruct u; simpl; do 2 eexists; split; reflexivity.
  - do 2 eexists; split; reflexivity.
Qed.

Lemma trimRight_app (a b : string) :
  trimRight b <> ""%string -> trimRight (a ++ b) = (a ++ trimRight b)%string.
Proof.
  intros Hb. induction a as [|x a IH]; simpl; [reflexivity|].
  rewrite IH.
  destruct (a ++ trimRight b)%string eqn:Hab; [|reflexivity].
  exfalso. revert Hab. now apply append_nonempty.
Qed.

Lemma TrimSpace_formatInt (z : Z) (b : string) :
  trimRight b <> ""%string ->
  TrimSpace (formatInt z ++ b) = (formatInt z ++ trimRight b)%string.
Proof.
  intros Hb. destruct (formatInt_head z) as (c & rest & Hz & Hc).
  unfold TrimSpace. rewrite Hz. simpl trimLeft. rewrite Hc.
  change (String c (rest ++ b)) with (String c rest ++ b)%string.
  now apply trimRight_app.
Qed.

Lemma formatInt_minutes_nonempty (z : Z) :
  trimRight (formatInt z ++ " minutes ") <> ""%string.
Proof.
  rewrite trimRight_app by discriminate.
  destruct (formatInt_head z) as (c & rest & -> & _). discriminate.
Qed.

Lemma Round_near_minutes (k e : Z) :
  1 <= k -> k * time.Minute <= maxInt64 ->
  -30 * time.Second <= e < 30 * time.Second ->
  Duration_Round (k * time.Minute + e) time.Minute = k * time.Minute.
Proof.
  change time.Minute with 60000000000. change (-30 * time.Second) with (-30000000000).
  change (30 * time.Second) with 30000000000.
  intros Hk Hmax He. unfold Duration_Round.
  change (60000000000 <=? 0) with false. cbv iota zeta.
  destruct (Z.ltb_spec (k * 60000000000 + e) 0) as [Hneg | Hpos]; [lia|].
  rewrite Z.rem_mod_nonneg by lia.
  assert (Hmod : (k * 60000000000 + e) mod 60000000000 = e mod 60000000000).
  { rewrite Z.add_comm. apply Z.mod_add. lia. }
  rewrite Hmod.
  pose proof (Z.mod_pos_bound e 60000000000 ltac:(lia)) as Hb.
  rewrite lessThanHalf_small by (unfold maxInt64 in *; lia).
  destruct (Z.le_gt_cases 0 e) as [Hnn | Hn].
  - rewrite (Z.mod_small e) in * by lia.
    destruct (Z.ltb_spec (2 * e) 60000000000); lia.
  - assert (He' : e mod 60000000000 = e + 60000000000).
    { symmetry. apply Z.mod_unique with (q := -1); lia. }
    rewrite He'.
    destruct (Z.ltb_spec (2 * (e + 60000000000)) 60000000000); [lia|].
    replace (k * 60000000000 + e + 60000000000 - (e + 60000000000))
      with (k * 60000000000) by lia.
    rewrite wrap64_small by (unfold minInt64, maxInt64 in *; lia).
    destruct (Z.ltb_spec (k * 60000000000 + e) (k * 60000000000)); lia.
Qed.

(** X20: what [humanDuration] prints for a duration within half a minute of
    [h] hours and [m] minutes, two minutes at least: up to an hour it counts
    in minutes, so that one hour is "60 minutes"; past an hour it prints the
    hours, "hour" for one and "hours" for more, and then the minutes only
    when there are two or more, so that a single minute after the hours is
    left out and "minute" in the singular is never printed. *)
Theorem humanDuration_hours_and_minutes (h m e : Z) :
  0 <= h -> 0 <= m < 60 -> 2 <= 60 * h + m ->
  -30 * time.Second <= e < 30 * time.Second ->
  h * time.Hour + m * time.Minute <= maxInt64 ->
  humanDuration (h * time.Hour + m * time.Minute + e) =
  if 60 * h + m <=? 60 then (formatInt (60 * h + m) ++ " minutes")%string
  else if m <=? 1
       then (formatInt h ++ (if (h =? 1)%Z then " hour" else " hours"))%string
       else (formatInt h ++ (if (h =? 1)%Z then " hour " else " hours ")
             ++ formatInt m ++ " minutes")%string.
Proof.
  intros Hh Hm Htwo He Hmax.
  assert (Hround : Duration_Round (h * time.Hour + m * time.Minute + e) time.Minute
                   = (60 * h + m) * time.Minute).
  { replace (h * time.Hour + m * time.Minute) with ((60 * h + m) * time.Minute)
      in * by (change time.Hour with (60 * time.Minute); lia).
    apply Round_near_minutes; [lia | assumption | assumption]. }
  unfold humanDuration. cbv zeta. rewrite Hround.
  change time.Hour with 3600000000000. change time.Minute with 60000000000.
  destruct (Z.leb_spec (60 * h + m) 60) as [Hle | Hgt].
  - assert (Hnh : (3600000000000 <? (60 * h + m) * 60000000000) = false)
      by (apply Z.ltb_ge; lia).
    assert (Hym : (60000000000 <? (60 * h + m) * 60000000000) = true)
      by (apply Z.ltb_lt; lia).
    rewrite Hnh, Hym.
    rewrite Z.quot_div_nonneg by lia. rewrite Z.div_mul by lia.
    assert (Hone : (60 * h + m =? 1) = false) by (apply Z.eqb_neq; lia).
    rewrite Hone. simpl append.
    rewrite TrimSpace_formatInt by discriminate. reflexivity.
  - assert (Hyh : (3600000000000 <? (60 * h + m) * 60000000000) = true)
      by (apply Z.ltb_lt; lia).
    rewrite Hyh.
    assert (Hq : Z.quot ((60 * h + m) * 60000000000) 3600000000000 = h).
    { rewrite Z.quot_div_nonneg by lia.
      symmetry. apply Z.div_unique with (r := m * 60000000000); lia. }
    rewrite Hq.
    replace ((60 * h + m) * 60000000000 - h * 3600000000000) with (m * 60000000000)
      by lia.
    destruct (Z.leb_spec m 1) as [Hm1 | Hm2].
    + assert (Hnm : (60000000000 <? m * 60000000000) = false) by (apply Z.ltb_ge; lia).
      destruct (h =? 1); rewrite Hnm; simpl append;
        rewrite TrimSpace_formatInt by discriminate; reflexivity.
    + assert (Hym : (60000000000 <? m * 60000000000) = true) by (apply Z.ltb_lt; lia).
      assert (Hqm : Z.quot (m * 60000000000) 60000000000 = m).
      { rewrite Z.quot_div_nonneg by lia. apply Z.div_mul. lia. }
      assert (Hone : (m =? 1) = false) by (apply Z.eqb_neq; lia).
      destruct (h =? 1); cbv beta iota; rewrite Hym, Hqm, Hone; simpl append;
        rewrite append_assoc;
        (rewrite TrimSpace_formatInt
           by (rewrite trimRight_app by apply formatInt_minutes_nonempty;
               apply append_nonempty, formatInt_minutes_nonempty));
        rewrite trimRight_app by apply formatInt_minutes_nonempty;
        rewrite (trimRight_app (formatInt m)) by discriminate; reflexivity.
Qed.

(** One hour and one minute, give or take: "1 hour". *)
Lemma humanDuration_hours_and_minutes_witness :
  humanDuration (1 * time.Hour + 1 * time.Minute + 20 * time.Second)
  = (formatInt 1 ++ " hour")%string.
Proof.
  refine (humanDuration_hours_and_minutes 1 1 (20 * time.Second) _ _ _ _ _).
  - vm_compute. discriminate.
  - split; vm_compute; [discriminate | reflexivity].
  - vm_compute. discriminate.
  - split; vm_compute; [discriminate | reflexivity].
  - vm_compute. discriminate.
Defined.

(** ** Refreshing all calendars *)

Lemma Refresh_error_unchanged (c : OnlineICSCalendar) (resp : Response)
    (others : option (option ICSCalendar)) (u : bool) (err : error) (c' : OnlineICSCalendar) :
  Refresh c resp others = ((u, Some err), c') -> u = false /\ c' = c.
Proof.
  destruct resp as [e|e|code status parsed]; simpl.
  - intros H. injection H as <- _ <-. split; reflexivity.
  - intros H. injection H as <- _ <-. split; reflexivity.
  - destruct (negb (code =? 200)).
    + intros H. injection H as <- _ <-. split; reflexivity.
    + destruct parsed as [new|e].
      * destruct (Equals (Load c) (Some new)); [discriminate|].
        destruct (CompareAndSwap _ (Load c) (Some new)) as [swapped c1].
        destruct swapped; discriminate.
      * intros H. injection H as <- _ <-. split; reflexivity.
Qed.

Lemma refreshEach_spec (exchange : nat -> Response * option (option ICSCalendar))
    (calendars : list OnlineICSCalendar) :
  forall i changed,
    refreshEach exchange i calendars changed =
    (changed ||
     existsb (fun r => fst (fst r))
       (map (fun ic => Refresh (snd ic) (fst (exchange (fst ic))) (snd (exchange (fst ic))))
            (combine (seq i (List.length calendars)) calendars)),
     map snd
       (map (fun ic => Refresh (snd ic) (fst (exchange (fst ic))) (snd (exchange (fst ic))))
            (combine (seq i (List.length calendars)) calendars))).
Proof.
  induction calendars as [|cal rest IH]; intros i changed; simpl.
  - now rewrite orb_false_r.
  - destruct (Refresh cal (fst (exchange i)) (snd (exchange i))) as [[u err] cal'] eqn:Hr.
    rewrite IH. simpl. f_equal.
    destruct err as [err|].
    + apply Refresh_error_unchanged in Hr. destruct Hr as (-> & _). reflexivity.
    + destruct u; simpl.
      * now rewrite orb_true_r.
      * reflexivity.
Qed.

Lemma refreshEach_all_failed (exchange : nat -> Response * option (option ICSCalendar))
    (calendars : list OnlineICSCalendar) :
  forall i,
    Forall (fun r => snd (fst r) <> None)
      (map (fun ic => Refresh (snd ic) (fst (exchange (fst ic))) (snd (exchange (fst ic))))
           (combine (seq i (List.length calendars)) calendars)) ->
    existsb (fun r => fst (fst r))
      (map (fun ic => Refresh (snd ic) (fst (exchange (fst ic))) (snd (exchange (fst ic))))
           (combine (seq i (List.length calendars)) calendars)) = false /\
    map snd
      (map (fun ic => Refresh (snd ic) (fst (exchange (fst ic))) (snd (exchange (fst ic))))
           (combine (seq i (List.length calendars)) calendars)) = calendars.
Proof.
  induction calendars as [|cal rest IH]; intros i Hall; simpl in *.
  - split; reflexivity.
  - apply Forall_cons_iff in Hall. destruct Hall as (Herr & Hrest).
    destruct (Refresh cal (fst (exchange i)) (snd (exchange i))) as [[u err] cal'] eqn:Hr.
    simpl in *. destruct err as [err|]; [|congruence].
    apply Refresh_error_unchanged in Hr. destruct Hr as (-> & ->).
    destruct (IH (S i) Hrest) as (He & Hm). rewrite He, Hm. split; reflexivity.
Qed.

(** X21: [refreshCalendar] refreshes every tracked calendar, each on its own:
    a calendar ends up as its own [Refresh] leaves it whether or not the
    refresh of another fails; the notifier is invalidated exactly when some
    refresh reports a change; and when every refresh fails, notifier and
    calendars are as they were. *)
Theorem refreshCalendar_invalidates_on_change (notifier : Notifier)
    (exchange : nat -> Response * option (option ICSCalendar))
    (calendars : list OnlineICSCalendar) :
  let refreshed :=
    map (fun ic => Refresh (snd ic) (fst (exchange (fst ic))) (snd (exchange (fst ic))))
        (combine (seq 0 (List.length calendars)) calendars) in
  snd (refreshCalendar notifier exchange calendars) = map snd refreshed /\
  fst (refreshCalendar notifier exchange calendars)
    = (if existsb (fun r => fst (fst r)) refreshed then Invalidate notifier else notifier) /\
  (Forall (fun r => snd (fst r) <> None) refreshed ->
   refreshCalendar notifier exchange calendars = (notifier, calendars)).
Proof.
  intros refreshed. unfold refreshCalendar. rewrite refreshEach_spec. fold refreshed.
  simpl. split; [reflexivity|]. split; [reflexivity|].
  intros Hall.
  destruct (refreshEach_all_failed exchange calendars 0 Hall) as (He & Hm).
  unfold refreshed. rewrite He, Hm. reflexivity.
Qed.

(** ** The next tick of the clock *)

Lemma Sub_in_range (t u : time.Time) (lo hi : Z) :
  minInt64 <= lo -> hi <= maxInt64 ->
  lo <= time.instant t - time.instant u <= hi ->
  time.Sub t u = time.instant t - time.instant u.
Proof. intros Hlo Hhi H. apply Sub_exact. lia. Qed.

(** X22: the wait [getDurationForNextFrame] computes ends on a multiple of
    the frame counted from the zero time.  For a positive frame, when the
    clock does not go back and less than half a frame passes between the
    first and the last reading, the wait is positive, at most one frame,
    and the reading it is measured from plus the wait is such a multiple. *)
Theorem getDurationForNextFrame_lands_on_frame (frame : time.Duration)
    (now1 now2 now3 : time.Time) :
  0 < frame <= maxInt64 ->
  time.instant now1 <= time.instant now2 <= time.instant now3 ->
  2 * (time.instant now3 - time.instant now1) <= frame ->
  let wait := getDurationForNextFrame frame now1 now2 now3 in
  0 < wait <= frame /\
  ((time.instant now2 + wait - time.instant time.zero) mod frame = 0 \/
   (time.instant now3 + wait - time.instant time.zero) mod frame = 0).
Proof.
  intros Hframe Hnow Hhalf.
  unfold getDurationForNextFrame, Time_Round. cbv zeta.
  destruct (Z.leb_spec frame 0) as [Hle | _]; [lia|].
  set (elapsed := time.instant now1 - time.instant time.zero).
  pose proof (Z.div_mod elapsed frame ltac:(lia)) as Hdm.
  pose proof (Z.mod_pos_bound elapsed frame ltac:(lia)) as Hb.
  set (r := elapsed mod frame) in *.
  set (q := elapsed / frame) in *.
  assert (Hmax : maxInt64 = 9223372036854775807) by reflexivity.
  assert (Hmin : minInt64 = -9223372036854775808) by reflexivity.
  rewrite lessThanHalf_small by lia.
  assert (Hmul : forall k x, x = frame * k -> x mod frame = 0).
  { intros k x ->. rewrite Z.mul_comm. apply Z.mod_mul. lia. }
  destruct (Z.ltb_spec (2 * r) frame) as [Hdown | Hup].
  - rewrite (Sub_in_range (time.Add now1 (- r)) now2 (- frame) 0)
      by (cbn [time.instant time.Add]; lia).
    cbn [time.instant time.Add].
    destruct (Z.ltb_spec 0 (time.instant now1 + - r - time.instant now2)) as [Hs | Hs];
      [lia|].
    rewrite (Sub_in_range (time.Add (time.Add now1 (- r)) frame) now3 0 frame)
      by (cbn [time.instant time.Add]; lia).
    cbn [time.instant time.Add]. split; [lia|]. right. apply (Hmul (q + 1)). unfold elapsed in *. lia.
  - rewrite (Sub_in_range (time.Add now1 (frame - r)) now2 (- frame) frame)
      by (cbn [time.instant time.Add]; lia).
    cbn [time.instant time.Add].
    destruct (Z.ltb_spec 0 (time.instant now1 + (frame - r) - time.instant now2))
      as [Hs | Hs].
    + split; [lia|]. left. apply (Hmul (q + 1)). unfold elapsed in *. lia.
    + rewrite (Sub_in_range (time.Add (time.Add now1 (frame - r)) frame) now3 0 frame)
        by (cbn [time.instant time.Add]; lia).
      cbn [time.instant time.Add]. split; [lia|]. right. apply (Hmul (q + 2)). unfold elapsed in *. lia.
Qed.

(** A frame of five seconds, read three seconds after midnight. *)
Lemma getDurationForNextFrame_witness :
  0 < getDurationForNextFrame (5 * time.Second) (afterMidnight (3 * time.Second))
        (afterMidnight (3 * time.Second)) (afterMidnight (3 * time.Second))
    <= 5 * time.Second.
Proof.
  refine (proj1 (getDurationForNextFrame_lands_on_frame (5 * time.Second)
            (afterMidnight (3 * time.Second)) (afterMidnight (3 * time.Second))
            (afterMidnight (3 * time.Second)) _ _ _)).
  - split; vm_compute; [reflexivity | discriminate].
  - split; vm_compute; discriminate.
  - vm_compute. discriminate.
Defined.
